(** * Events Manager (app.py): a shallow embedding and its properties

    The application is a Streamlit page over a remote events API.  This
    development embeds its helper functions ([req], [list_events],
    [enforce_mutual_exclusion], [enc], the create and save handlers) and
    proves the properties its specification states about them.

    Conventions of the embedding
    - a Python [str] is the list of its Unicode code points ([list Z]);
      [py "..."] turns an ASCII literal into such a list;
    - a parsed JSON document is a [json] value; a Python [dict] is an
      association list in insertion order with unique keys;
    - a Python [set] of strings is a [gset]; [sorted] of a set sorts its
      enumeration with Python's [<] on strings;
    - code that may raise returns in [res]; code with effects (HTTP calls,
      Streamlit output) runs in the writer monad [M], whose log is the
      sequence of calls and widgets the page produced. *)

From Stdlib Require Import ZArith List Ascii String Lia.
From Stdlib Require Import Floats.SpecFloat DecimalString.
From stdpp Require Import base decidable option list sorting gmap sets.

Local Open Scope Z_scope.
#[local] Set Warnings "-clear-no-such-hyp".

(* ================================================================== *)
(** ** Python strings *)
(* ================================================================== *)

Abbreviation pystr := (list Z).

(** An ASCII literal as a Python string. *)
Definition py (s : string) : pystr :=
  (fun a => Z.of_N (N_of_ascii a)) <$> list_ascii_of_string s.

(** The values a [str] can hold: code points U+0000 .. U+10FFFF. *)
Definition is_codepoint (c : Z) : Prop := 0 <= c <= 1114111.
Definition is_str (s : pystr) : Prop := Forall is_codepoint s.

(** Surrogate code points U+D800 .. U+DFFF. *)
Definition is_surrogate (c : Z) : bool := (55296 <=? c) && (c <=? 57343).

(** [a < b] on [str]: lexicographic on code points. *)
Fixpoint str_ltb (a b : pystr) : bool :=
  match a, b with
  | _, [] => false
  | [], _ :: _ => true
  | x :: a', y :: b' => (x <? y) || ((x =? y) && str_ltb a' b')
  end.

Definition str_lt (a b : pystr) : Prop := str_ltb a b = true.

(** [not (b < a)], the order [sorted] leaves between neighbours. *)
Definition str_le (a b : pystr) : Prop := str_ltb b a = false.

#[global] Instance str_le_dec (a b : pystr) : Decision (str_le a b) :=
  decide (str_ltb b a = false).

(** [s.split(sep)] for a one-character separator. *)
Fixpoint split (sep : Z) (s : pystr) : list pystr :=
  match s with
  | [] => [[]]
  | c :: s' =>
      if c =? sep then [] :: split sep s'
      else match split sep s' with
           | h :: t => (c :: h) :: t
           | [] => [[c]]
           end
  end.

(** [sep.join(parts)]. *)
Fixpoint join (sep : pystr) (parts : list pystr) : pystr :=
  match parts with
  | [] => []
  | [p] => p
  | p :: rest => p ++ sep ++ join sep rest
  end.

(** [f"{n}"] for an [int]. *)
Definition fmt_int (n : Z) : pystr :=
  py (NilZero.string_of_int (Z.to_int n)).

(* ================================================================== *)
(** ** Sets of strings and the reconciler *)
(* ================================================================== *)

(** [sorted(s)] for a set [s]: Python sorts the set's iteration order,
    here [elements s], into ascending order.  The elements of a set are
    distinct and the order on strings is total, so the ascending list is
    unique: neither the iteration order nor the sorting algorithm shows
    in the result ([sorted_list_unique] below). *)
Definition sorted_list (l : list pystr) : list pystr := merge_sort str_le l.
Definition sorted (s : gset pystr) : list pystr := sorted_list (elements s).

(** [x or []] for an argument that is [None] or a list. *)
Definition or_nil (x : option (list pystr)) : list pystr :=
  match x with
  | Some ((_ :: _) as l) => l
  | _ => []
  end.

(** app.py, lines 58-62. *)
Definition enforce_mutual_exclusion
  (selected_post selected_posting selected_posted : option (list pystr))
  : list pystr * list pystr * list pystr :=
  let s1 : gset pystr := list_to_set (or_nil selected_post) in
  let s2 : gset pystr := list_to_set (or_nil selected_posting) in
  let s3 : gset pystr := list_to_set (or_nil selected_posted) in
  let s2 := s2 ∖ s1 in
  let s3 := s3 ∖ (s1 ∪ s2) in
  (sorted s1, sorted s2, sorted s3).

(** The reconciler applied to its own result. *)
Definition reconcile3 (t : list pystr * list pystr * list pystr) :=
  let '(a, b, c) := t in enforce_mutual_exclusion (Some a) (Some b) (Some c).

(** [x] is an element of the input collection [a]; [None] has none. *)
Definition selected (x : pystr) (a : option (list pystr)) : Prop :=
  match a with
  | Some l => x ∈ l
  | None => False
  end.

Definition CHANNELS : list pystr :=
  [py "moms"; py "sojourner"; py "patch"; py "test"].

(* ================================================================== *)
(** ** JSON values and dicts *)
(* ================================================================== *)

#[warnings="-register-all"]
Inductive json : Type :=
| JNull                               (* None *)
| JBool (b : bool)
| JInt (n : Z)
| JFloat (f : spec_float)
| JStr (s : pystr)
| JArr (l : list json)
| JObj (kv : list (pystr * json)).    (* dict, insertion order *)

Abbreviation dict := (list (pystr * json)).

(** [d.get(k)]: [None] of the option is Python's missing key. *)
Fixpoint dict_get {V : Type} (k : pystr) (d : list (pystr * V)) : option V :=
  match d with
  | [] => None
  | (k', v) :: d' => if decide (k' = k) then Some v else dict_get k d'
  end.

(** [d[k] = v]: overwrite in place, or append a new key. *)
Fixpoint dict_set {V : Type} (k : pystr) (v : V) (d : list (pystr * V))
  : list (pystr * V) :=
  match d with
  | [] => [(k, v)]
  | (k', v') :: d' =>
      if decide (k' = k) then (k, v) :: d' else (k', v') :: dict_set k v d'
  end.

(** [{**d, **extra}]. *)
Definition dict_update {V : Type} (d extra : list (pystr * V))
  : list (pystr * V) :=
  fold_left (fun acc kv => dict_set (fst kv) (snd kv) acc) extra d.

(** [d.get(k, dflt)]. *)
Definition dict_get_or (k : pystr) (dflt : json) (d : dict) : json :=
  default dflt (dict_get k d).

(** [d.get(k)] as a Python value: a missing key reads as [None]. *)
Definition dict_get_none (k : pystr) (d : dict) : json :=
  dict_get_or k JNull d.

(** Truth value of a parsed JSON value ([bool(v)]). *)
Definition truthy (v : json) : bool :=
  match v with
  | JNull => false
  | JBool b => b
  | JInt n => negb (n =? 0)
  | JFloat f => match f with S754_zero _ => false | _ => true end
  | JStr s => negb (bool_decide (s = []))
  | JArr l => match l with [] => false | _ => true end
  | JObj kv => match kv with [] => false | _ => true end
  end.

(** [v or w]. *)
Definition py_or (v w : json) : json := if truthy v then v else w.

(** [s == v] for a [str] [s]: only an equal [str] is equal to it. *)
Definition str_eq (s : pystr) (v : json) : bool :=
  match v with
  | JStr t => bool_decide (s = t)
  | _ => false
  end.

(** [l == v] for a list [l] of [str]: only a list of the same length
    with equal elements is equal to it. *)
Fixpoint strs_eq_list (l : list pystr) (vs : list json) : bool :=
  match l, vs with
  | [], [] => true
  | s :: l', v :: vs' => str_eq s v && strs_eq_list l' vs'
  | _, _ => false
  end.

Definition strs_eq (l : list pystr) (v : json) : bool :=
  match v with
  | JArr vs => strs_eq_list l vs
  | _ => false
  end.

(** A list of [str] as a JSON value. *)
Definition jstrs (l : list pystr) : json := JArr (JStr <$> l).

(* ================================================================== *)
(** ** Percent-encoding: [urllib.parse.quote] with [safe=""] *)
(* ================================================================== *)

Definition is_byte (b : Z) : Prop := 0 <= b < 256.

(** [c.encode("utf-8", "strict")] for one code point: the bytes of its
    UTF-8 form; [None] where the codec raises (a surrogate) and for a
    number that is no code point. *)
Definition utf8_encode_cp (c : Z) : option (list Z) :=
  if (c <? 0) || (1114111 <? c) then None
  else if c <? 128 then Some [c]
  else if c <? 2048 then Some [192 + c / 64; 128 + c mod 64]
  else if c <? 65536 then
    if is_surrogate c then None
    else Some [224 + c / 4096; 128 + (c / 64) mod 64; 128 + c mod 64]
  else Some [240 + c / 262144; 128 + (c / 4096) mod 64;
             128 + (c / 64) mod 64; 128 + c mod 64].

Fixpoint utf8_encode (s : pystr) : option (list Z) :=
  match s with
  | [] => Some []
  | c :: s' =>
      match utf8_encode_cp c, utf8_encode s' with
      | Some bs, Some rest => Some (bs ++ rest)
      | _, _ => None
      end
  end.

(** [_ALWAYS_SAFE]: ASCII letters, digits and [_ . - ~]. *)
Definition always_safe (b : Z) : bool :=
  ((65 <=? b) && (b <=? 90)) || ((97 <=? b) && (b <=? 122))
  || ((48 <=? b) && (b <=? 57))
  || (b =? 95) || (b =? 46) || (b =? 45) || (b =? 126).

(** One upper-case hexadecimal digit. *)
Definition hex_digit (d : Z) : Z := if d <? 10 then 48 + d else 55 + d.

(** The quoter of [quote_from_bytes]: a safe byte stays, any other byte
    becomes ['%{:02X}'.format(b)].  [safe] lists the caller's extra safe
    characters, of which only the ASCII ones count. *)
Definition quote_byte (safe : pystr) (b : Z) : pystr :=
  if always_safe b || ((b <? 128) && bool_decide (b ∈ safe)) then [b]
  else [37; hex_digit (b / 16); hex_digit (b mod 16)].

(** [''.join(quoter(b) for b in bs)].  The library's shortcuts, for an
    empty argument and for one made of safe bytes only, return the same
    text. *)
Definition quote_from_bytes (bs : list Z) (safe : pystr) : pystr :=
  concat (quote_byte safe <$> bs).

(** Exceptions the modelled code can raise. *)
Inductive exn : Type :=
| RuntimeError (msg : pystr)
| RequestException (msg : pystr)   (* transport failure in requests *)
| AttributeError                   (* e.g. [None.get], [7 .split] *)
| TypeError                        (* iteration over a non-iterable *)
| KeyError
| ValueError
| UnicodeEncodeError               (* utf-8 cannot encode a surrogate *)
| RerunException.                  (* a rerun request, no Exception *)

Inductive res (A : Type) : Type :=
| Ok (a : A)
| Raise (e : exn).
Arguments Ok {A} a.
Arguments Raise {A} e.

#[global] Instance res_ret : MRet res := fun A a => Ok a.
#[global] Instance res_bind : MBind res := fun A B f m =>
  match m with
  | Ok a => f a
  | Raise e => Raise e
  end.

(** [urllib.parse.quote(s, safe=safe)] on a [str]. *)
Definition quote (s : pystr) (safe : pystr) : res pystr :=
  match utf8_encode s with
  | Some bs => Ok (quote_from_bytes bs safe)
  | None => Raise UnicodeEncodeError
  end.

(** app.py, lines 69-71. *)
Definition enc (s : pystr) : res pystr := quote s [].

(** *** Percent-decoding, the inverse direction

    [urllib.parse.unquote]: ["%XX"] with two hexadecimal digits is one
    byte, everything else stands for itself; the bytes are then read as
    UTF-8. *)

Definition hex_value (c : Z) : option Z :=
  if (48 <=? c) && (c <=? 57) then Some (c - 48)
  else if (65 <=? c) && (c <=? 70) then Some (c - 55)
  else if (97 <=? c) && (c <=? 102) then Some (c - 87)
  else None.

Fixpoint unquote_to_bytes (s : pystr) : list Z :=
  match s with
  | [] => []
  | c :: t =>
      if c =? 37 then
        match t with
        | h :: l :: t' =>
            match hex_value h, hex_value l with
            | Some x, Some y => (16 * x + y) :: unquote_to_bytes t'
            | _, _ => c :: unquote_to_bytes t
            end
        | _ => c :: unquote_to_bytes t
        end
      else c :: unquote_to_bytes t
  end.

Definition is_cont (b : Z) : bool := (128 <=? b) && (b <=? 191).

(** Strict UTF-8 decoding: [None] on an ill-formed sequence. *)
Fixpoint utf8_decode (bs : list Z) : option pystr :=
  match bs with
  | [] => Some []
  | b0 :: t =>
      if (0 <=? b0) && (b0 <? 128) then cons b0 <$> utf8_decode t
      else if (194 <=? b0) && (b0 <=? 223) then
        match t with
        | b1 :: t1 =>
            if is_cont b1
            then cons ((b0 - 192) * 64 + (b1 - 128)) <$> utf8_decode t1
            else None
        | _ => None
        end
      else if (224 <=? b0) && (b0 <=? 239) then
        match t with
        | b1 :: b2 :: t2 =>
            let c := (b0 - 224) * 4096 + (b1 - 128) * 64 + (b2 - 128) in
            if is_cont b1 && is_cont b2 && (2048 <=? c)
               && negb (is_surrogate c)
            then cons c <$> utf8_decode t2
            else None
        | _ => None
        end
      else if (240 <=? b0) && (b0 <=? 244) then
        match t with
        | b1 :: b2 :: b3 :: t3 =>
            let c := (b0 - 240) * 262144 + (b1 - 128) * 4096
                     + (b2 - 128) * 64 + (b3 - 128) in
            if is_cont b1 && is_cont b2 && is_cont b3
               && (65536 <=? c) && (c <=? 1114111)
            then cons c <$> utf8_decode t3
            else None
        | _ => None
        end
      else None
  end.

Definition unquote (s : pystr) : option pystr :=
  utf8_decode (unquote_to_bytes s).

(* ================================================================== *)
(** ** Effects: HTTP calls and Streamlit output *)
(* ================================================================== *)

Record request : Type := {
  rq_method : pystr;
  rq_url : pystr;
  rq_headers : list (pystr * pystr);
  rq_data : option json           (* the document [json.dumps] wrote *)
}.

(** A [requests.Response]: [resp_json] is [None] where [resp.json()]
    raises. *)
Record response : Type := {
  status_code : Z;
  content : list Z;
  text : pystr;
  resp_json : option json;
  headers : list (pystr * pystr)
}.

Inductive event : Type :=
| HttpCall (rq : request)
| StError (msg : pystr)
| StInfo (msg : pystr)
| StSuccess (msg : pystr)
| StDataframe (cols : list pystr) (rows : list json).

(** A computation: its outcome and the calls and widgets it produced,
    in order. *)
Definition M (A : Type) : Type := res A * list event.

#[global] Instance M_ret : MRet M := fun A a => (Ok a, []).
#[global] Instance M_bind : MBind M := fun A B f m =>
  match m with
  | (Ok a, log) => let '(r, log') := f a in (r, log ++ log')
  | (Raise e, log) => (Raise e, log)
  end.

Definition lift {A : Type} (r : res A) : M A := (r, []).
Definition raise {A : Type} (e : exn) : M A := (Raise e, []).
Definition emit (ev : event) : M unit := (Ok tt, [ev]).

(** [try: m  except Exception as e: handler(e)]; the rerun signal is
    not an [Exception] and passes through. *)
Definition try_except {A : Type} (m : M A) (handler : exn -> M A) : M A :=
  match m with
  | (Raise RerunException, log) => (Raise RerunException, log)
  | (Raise e, log) => let '(r, log') := handler e in (r, log ++ log')
  | ok => ok
  end.

Definition st_error (msg : pystr) : M unit := emit (StError msg).
Definition st_info (msg : pystr) : M unit := emit (StInfo msg).
Definition st_success (msg : pystr) : M unit := emit (StSuccess msg).

(** [st.experimental_rerun()], lines 136, 204 and 212.  Streamlit
    dropped this function before it gained [st.segmented_control], which
    line 88 calls first: wherever the page gets as far as a handler, the
    module has no such attribute, the call raises [AttributeError] and
    the page is not reloaded. *)
Definition st_experimental_rerun : M unit := raise AttributeError.

(** What the page is run against: the configuration, the transport, and
    the Python built-ins that turn a value into text. *)
Record env : Type := {
  API_BASE : pystr;
  API_KEY : pystr;
  http : request -> res response;   (* requests.request *)
  py_repr : json -> pystr;          (* format() of a value not a str *)
  exn_text : exn -> pystr           (* str(e) of a built-in exception *)
}.

(** [f"{v}"]. *)
Definition fmt (E : env) (v : json) : pystr :=
  match v with
  | JStr s => s
  | _ => py_repr E v
  end.

(** [str(e)]. *)
Definition exn_str (E : env) (e : exn) : pystr :=
  match e with
  | RuntimeError msg => msg
  | RequestException msg => msg
  | _ => exn_text E e
  end.

Definition HEADERS (E : env) : list (pystr * pystr) :=
  [(py "x-api-key", API_KEY E); (py "Content-Type", py "application/json")].

(** app.py, lines 28-40. *)
Definition req (E : env) (method path : pystr)
  (kw_headers : list (pystr * pystr)) (data : option json)
  : M (Z * json * list (pystr * pystr)) :=
  let url := API_BASE E ++ path in
  let hdrs := dict_update (HEADERS E) kw_headers in
  let rq := {| rq_method := method; rq_url := url;
               rq_headers := hdrs; rq_data := data |} in
  emit (HttpCall rq) ;;
  resp ← lift (http E rq);
  let body :=
    match content resp with
    | [] => JNull
    | _ :: _ =>
        match resp_json resp with
        | Some v => v
        | None => JObj [(py "raw", JStr (text resp))]
        end
    end in
  mret (status_code resp, body, headers resp).

(** [v.get]: only a dict has it. *)
Definition as_dict (v : json) : res dict :=
  match v with
  | JObj d => Ok d
  | _ => Raise AttributeError
  end.

(** [v.split]: only a str has it. *)
Definition as_str (v : json) : res pystr :=
  match v with
  | JStr s => Ok s
  | _ => Raise AttributeError
  end.

(** [for x in v]: a list yields its elements, a str its characters,
    a dict its keys; nothing else is iterable. *)
Definition py_iter (v : json) : res (list json) :=
  match v with
  | JArr l => Ok l
  | JStr s => Ok ((fun c => JStr [c]) <$> s)
  | JObj kv => Ok ((fun p => JStr (fst p)) <$> kv)
  | _ => Raise TypeError
  end.

Fixpoint mapM_res {A B : Type} (f : A -> res B) (l : list A) : res (list B) :=
  match l with
  | [] => Ok []
  | a :: l' => b ← f a; bs ← mapM_res f l'; mret (b :: bs)
  end.

(** The inner loops of [list_events], lines 51-53. *)
Fixpoint channel_pairs (E : env) (it : dict) (ks : list pystr)
  : res (list pystr) :=
  match ks with
  | [] => Ok []
  | k :: ks' =>
      vs ← py_iter (dict_get_or k (JArr []) it);
      rest ← channel_pairs E it ks';
      mret (((fun v => k ++ py ":" ++ fmt E v) <$> vs) ++ rest)
  end.

(** The body of the loop over [items], lines 47-54. *)
Definition augment (E : env) (it : json) : res json :=
  d ← as_dict it;
  date_id ← as_str (dict_get_or (py "date_id") (JStr []) d);
  let d := dict_set (py "date") (JStr (hd [] (split 35 date_id))) d in
  chans ← channel_pairs E d [py "post"; py "posting"; py "posted"];
  mret (JObj (dict_set (py "channels") (JStr (join (py ", ") chans)) d)).

(** app.py, lines 42-56.  [items] is updated in place and returned. *)
Definition list_events (E : env) (access : pystr) : M json :=
  '(sc, body, _) ← req E (py "GET") (py "/events/" ++ access) [] None;
  if sc =? 200 then
    d ← lift (as_dict body);
    let items := dict_get_or (py "items") (JArr []) d in
    its ← lift (py_iter items);
    its' ← lift (mapM_res (augment E) its);
    mret (match items with JArr _ => JArr its' | _ => items end)
  else
    raise (RuntimeError
             (py "List failed: " ++ fmt_int sc ++ py " " ++ fmt E body)).

(** app.py, lines 64-66. *)
Definition create_event (E : env) (payload : dict)
  : M (Z * json * list (pystr * pystr)) :=
  req E (py "POST") (py "/events") [] (Some (JObj payload)).

(** app.py, lines 73-80. *)
Definition event_path (access date_id : pystr) : res pystr :=
  e ← enc date_id; mret (py "/events/" ++ access ++ py "/" ++ e).

Definition get_event (E : env) (access date_id : pystr) :=
  p ← lift (event_path access date_id); req E (py "GET") p [] None.

Definition update_event (E : env) (access date_id : pystr) (patch : dict) :=
  p ← lift (event_path access date_id);
  req E (py "PUT") p [] (Some (JObj patch)).

Definition delete_event (E : env) (access date_id : pystr) :=
  p ← lift (event_path access date_id); req E (py "DELETE") p [] None.

(* ================================================================== *)
(** ** The page: list, create form, edit form *)
(* ================================================================== *)

(** Columns of [pd.DataFrame(rows)]: the keys of the rows, in order of
    first appearance. *)
Definition df_columns (rows : list json) : list pystr :=
  fold_left
    (fun acc r =>
       match r with
       | JObj d =>
           fold_left
             (fun acc kv =>
                if bool_decide (fst kv ∈ acc) then acc else acc ++ [fst kv])
             d acc
       | _ => acc
       end)
    rows [].

(** Lines 148-155: the table, or a note when the frame is empty. *)
Definition show_table (items : json) : M unit :=
  let no_events := st_info (py "No events for this access yet.") in
  match items with
  | JArr rows =>
      let cols :=
        filter (fun c => c ∈ df_columns rows)
          [py "date"; py "title"; py "time"; py "description";
           py "channels"; py "date_id"] in
      match rows, df_columns rows with
      | [], _ | _, [] => no_events
      | _, _ => emit (StDataframe cols rows)
      end
  | JObj [] => no_events
  | _ => raise ValueError
  end.

(** Lines 160-162: the options of the edit selector. *)
Definition edit_options (items : json) : res (list json) :=
  if truthy items then
    its ← py_iter items;
    mapM_res
      (fun it =>
         match it with
         | JObj d =>
             match dict_get (py "date_id") d with
             | Some v => Ok v
             | None => Raise KeyError
             end
         | _ => Raise TypeError
         end)
      its
  else Ok [].

(** Lines 141-162: list the events of [tab_access] and offer them for
    editing; returns [items] and the selector's options. *)
Definition list_section (E : env) (tab_access : pystr)
  : M (json * list json) :=
  items ← try_except (list_events E tab_access)
            (fun e => st_error (exn_str E e) ;; mret (JArr []));
  show_table items ;;
  opts ← lift (edit_options items);
  mret (items, opts).

Inductive date_input_mode : Type := DateOnly | FullDateId.

(** The values of the sidebar's widgets. *)
Record create_form : Type := {
  access_new : pystr;
  date_mode : date_input_mode;
  date : pystr;           (* read in "Date only" mode *)
  date_id : pystr;        (* read in "Full date_id" mode *)
  title : pystr;
  time_ : pystr;
  desc : pystr;
  post : list pystr;
  posting : list pystr;
  posted : list pystr
}.

Definition set_if (c : bool) (k : pystr) (v : json) (d : dict) : dict :=
  if c then dict_set k v d else d.

Definition nonempty {A : Type} (l : list A) : bool :=
  match l with [] => false | _ => true end.

(** Lines 113-130: the payload the Create button submits. *)
Definition create_payload (f : create_form) : dict :=
  let '(post, posting, posted) :=
    enforce_mutual_exclusion (Some (post f)) (Some (posting f))
      (Some (posted f)) in
  let payload :=
    [(py "access", JStr (access_new f)); (py "title", JStr (title f))] in
  let payload :=
    match date_mode f with
    | DateOnly => dict_set (py "date") (JStr (date f)) payload
    | FullDateId => dict_set (py "date_id") (JStr (date_id f)) payload
    end in
  let payload := set_if (nonempty (time_ f)) (py "time") (JStr (time_ f)) payload in
  let payload :=
    set_if (nonempty (desc f)) (py "description") (JStr (desc f)) payload in
  let payload := set_if (nonempty post) (py "post") (jstrs post) payload in
  let payload := set_if (nonempty posting) (py "posting") (jstrs posting) payload in
  let payload := set_if (nonempty posted) (py "posted") (jstrs posted) payload in
  payload.

(** [headers.get(k)] on the response headers, whose keys compare
    without regard to ASCII case. *)
Definition lower (s : pystr) : pystr :=
  (fun c => if (65 <=? c) && (c <=? 90) then c + 32 else c) <$> s.

Fixpoint header_get (k : pystr) (h : list (pystr * pystr)) : option pystr :=
  match h with
  | [] => None
  | (k', v) :: h' =>
      if decide (lower k' = lower k) then Some v else header_get k h'
  end.

(** [(body or {}).get(k)]. *)
Definition body_get (k : pystr) (body : json) : res json :=
  d ← as_dict (py_or body (JObj [])); mret (dict_get_none k d).

(** Lines 115-139: the Create button. *)
Definition create_click (E : env) (f : create_form) : M unit :=
  if bool_decide (title f = []) then st_error (py "Title is required.")
  else
    '(sc, body, hdrs) ← create_event E (create_payload f);
    if sc =? 201 then
      loc ← lift
        (match header_get (py "Location") hdrs with
         | Some ((_ :: _) as s) => Ok (JStr s)
         | _ => body_get (py "location") body
         end);
      st_success
        (py "Created " ++ [10003] ++ py " " ++ fmt E (py_or loc (JStr []))) ;;
      st_experimental_rerun
    else
      m ← lift (body_get (py "message") body);
      st_error
        (py "Create failed (" ++ fmt_int sc ++ py "): " ++ fmt E (py_or m body)).

(** The values of the edit form's widgets.  [st.text_input] returns a
    str, or [None] when it was given [value=None] (a fetched [null])
    and nothing was typed. *)
Record edit_form : Type := {
  title_e : option pystr;   (* st.text_input: None for value=None *)
  time_e : option pystr;    (* st.text_input: None for value=None *)
  desc_e : pystr;           (* st.text_area, started from a str *)
  post_e : list pystr;
  posting_e : list pystr;
  posted_e : list pystr;
  save : bool;
  delete : bool
}.

(** [s or ""] for a str. *)
Definition or_empty (s : pystr) : pystr :=
  match s with [] => [] | _ => s end.

(** A text widget's value as a Python value. *)
Definition jtext (t : option pystr) : json :=
  match t with
  | Some s => JStr s
  | None => JNull
  end.

(** [t == v] for a text widget's value [t]: [None] is equal to [None]
    only. *)
Definition text_eq (t : option pystr) (v : json) : bool :=
  match t with
  | Some s => str_eq s v
  | None => match v with JNull => true | _ => false end
  end.

(** Lines 190-196: the patch, from the fetched [body] and the edited
    values, the channel lists being those the reconciler returned. *)
Definition build_patch (body : dict) (title_e time_e : option pystr)
  (desc_e : pystr) (post_e posting_e posted_e : list pystr) : dict :=
  let patch : dict := [] in
  let patch :=
    set_if (negb (text_eq title_e (dict_get_none (py "title") body)))
      (py "title") (jtext title_e) patch in
  let patch :=
    set_if (negb (text_eq time_e
                    (py_or (dict_get_none (py "time") body) (JStr []))))
      (py "time") (jtext time_e) patch in
  let patch :=
    set_if (negb (str_eq (or_empty desc_e)
                    (py_or (dict_get_none (py "description") body) (JStr []))))
      (py "description") (JStr desc_e) patch in
  let patch :=
    set_if (negb (strs_eq post_e (dict_get_or (py "post") (JArr []) body)))
      (py "post") (jstrs post_e) patch in
  let patch :=
    set_if (negb (strs_eq posting_e (dict_get_or (py "posting") (JArr []) body)))
      (py "posting") (jstrs posting_e) patch in
  let patch :=
    set_if (negb (strs_eq posted_e (dict_get_or (py "posted") (JArr []) body)))
      (py "posted") (jstrs posted_e) patch in
  patch.

(** Lines 179 and 190-196 together: reconcile the selections, then
    build the patch. *)
Definition edit_patch (body : dict) (f : edit_form) : dict :=
  let '(post_e, posting_e, posted_e) :=
    enforce_mutual_exclusion (Some (post_e f)) (Some (posting_e f))
      (Some (posted_e f)) in
  build_patch body (title_e f) (time_e f) (desc_e f) post_e posting_e posted_e.

(** Lines 189-206: the Save button. *)
Definition save_click (E : env) (tab_access date_id_sel : pystr)
  (body : dict) (f : edit_form) : M unit :=
  let patch := edit_patch body f in
  if negb (nonempty patch) then st_info (py "No changes.")
  else
    '(sc, resp, _) ← update_event E tab_access date_id_sel patch;
    if sc =? 200 then
      st_success (py "Saved " ++ [10003]) ;; st_experimental_rerun
    else
      m ← lift (body_get (py "message") resp);
      st_error
        (py "Update failed (" ++ fmt_int sc ++ py "): " ++ fmt E (py_or m resp)).

(** Lines 208-214: the Delete button. *)
Definition delete_click (E : env) (tab_access date_id_sel : pystr) : M unit :=
  '(sc, _, _) ← delete_event E tab_access date_id_sel;
  if (sc =? 200) || (sc =? 204) then
    st_success (py "Deleted " ++ [10003]) ;; st_experimental_rerun
  else st_error (py "Delete failed (" ++ fmt_int sc ++ py ")").


(** The fetched values that count as no text: Python's false values
    [None], [False], [0], [0.0], [""], [[]] and [{}]. *)
Definition no_text (v : json) : Prop :=
  v = JNull \/ v = JBool false \/ v = JInt 0
  \/ (exists sign, v = JFloat (S754_zero sign))
  \/ v = JStr [] \/ v = JArr [] \/ v = JObj [].

(** The comparison rule of the optional text fields: the edited value
    is a str, and the fetched value is that str, or the str is empty and
    the fetched value is missing, [None] or otherwise counts as no
    text.  An edited [None] is no str and so never the same. *)
Definition same_text (t : option pystr) (fetched : option json) : Prop :=
  exists s, t = Some s
            /\ match fetched with
               | None => s = []
               | Some v => v = JStr s \/ (no_text v /\ s = [])
               end.

(** The comparison rule of the title: the fetched value is the edited
    str; an edited [None] is the same as a missing or [None] title. *)
Definition same_title (t : option pystr) (fetched : option json) : Prop :=
  match t with
  | Some s => fetched = Some (JStr s)
  | None => fetched = None \/ fetched = Some JNull
  end.

(** The text a widget holds, as it is written into the patch. *)
Definition edited_text (t : option pystr) : json :=
  match t with
  | Some s => JStr s
  | None => JNull
  end.

(** The comparison rule of the channel lists: a missing list counts as
    the empty list, otherwise the fetched value is compared as it is. *)
Definition same_list (l : list pystr) (fetched : option json) : Prop :=
  match fetched with
  | None => l = []
  | Some v => v = JArr (JStr <$> l)
  end.

(** A field is in the patch, with its edited value, exactly when it
    differs. *)
Definition patch_field (patch : dict) (k : pystr) (edited : json)
  (same : Prop) : Prop :=
  (same /\ dict_get k patch = None)
  \/ (~ same /\ dict_get k patch = Some edited).

(** The request [update_event] sends for a patch. *)
Definition put_request (E : env) (path : pystr) (patch : dict) : request :=
  {| rq_method := py "PUT"; rq_url := API_BASE E ++ path;
     rq_headers := HEADERS E; rq_data := Some (JObj patch) |}.

(** The request [create_event] sends for a payload. *)
Definition post_request (E : env) (payload : dict) : request :=
  {| rq_method := py "POST"; rq_url := API_BASE E ++ py "/events";
     rq_headers := HEADERS E; rq_data := Some (JObj payload) |}.

(** The request [list_events] sends. *)
Definition list_request (E : env) (access : pystr) : request :=
  {| rq_method := py "GET"; rq_url := API_BASE E ++ py "/events/" ++ access;
     rq_headers := HEADERS E; rq_data := None |}.

(** The create scenario of the specification. *)
Definition rehearsal_form : create_form :=
  {| access_new := py "private"; date_mode := DateOnly;
     date := py "2025-10-06"; date_id := [];
     title := py "Rehearsal"; time_ := []; desc := [];
     post := [py "moms"; py "patch"]; posting := [py "patch"];
     posted := [] |}.

(** The substring of [s] before the first [sep]; all of [s] when [sep]
    does not occur in it. *)
Fixpoint before (sep : Z) (s : pystr) : pystr :=
  match s with
  | [] => []
  | c :: s' => if c =? sep then [] else c :: before sep s'
  end.

(** ["<category>:<channel>"] for every channel of the three lists, the
    categories in the order post, posting, posted, joined by [", "]. *)
Definition channels_view (E : env) (post posting posted : list json) : pystr :=
  join (py ", ")
    (((fun v => py "post:" ++ fmt E v) <$> post)
     ++ ((fun v => py "posting:" ++ fmt E v) <$> posting)
     ++ ((fun v => py "posted:" ++ fmt E v) <$> posted)).

(** Field [k] of a record holds the text [s]; a missing field reads as
    the empty text. *)
Definition has_text (d : dict) (k : pystr) (s : pystr) : Prop :=
  dict_get k d = Some (JStr s) \/ (dict_get k d = None /\ s = []).

(** Field [k] of a record holds the list [vs]; a missing field reads as
    the empty list. *)
Definition has_list (d : dict) (k : pystr) (vs : list json) : Prop :=
  dict_get k d = Some (JArr vs) \/ (dict_get k d = None /\ vs = []).

(** An event record as the API returns it, and the same record with the
    two derived fields. *)
Inductive augmented (E : env) : json -> json -> Prop :=
| augmented_intro (d : dict) (id : pystr) (p1 p2 p3 : list json) :
    has_text d (py "date_id") id ->
    has_list d (py "post") p1 ->
    has_list d (py "posting") p2 ->
    has_list d (py "posted") p3 ->
    augmented E (JObj d)
      (JObj (dict_set (py "channels") (JStr (channels_view E p1 p2 p3))
               (dict_set (py "date") (JStr (before 35 id)) d))).

Definition is_event (it : json) : Prop :=
  exists (d : dict) (id : pystr) (p1 p2 p3 : list json),
    it = JObj d /\ has_text d (py "date_id") id
    /\ has_list d (py "post") p1 /\ has_list d (py "posting") p2
    /\ has_list d (py "posted") p3.

(** The HTTP calls in a log. *)
Definition http_calls (log : list event) : list request :=
  omap (fun ev => match ev with HttpCall rq => Some rq | _ => None end) log.

(** *** Fixtures: an environment whose transport always answers [r] *)

Definition fixed_env (r : res response) : env :=
  {| API_BASE := py "https://api.example.org";
     API_KEY := py "secret";
     http := fun _ => r;
     py_repr := fun _ => py "<value>";
     exn_text := fun _ => py "<exception>" |}.

Definition reply (sc : Z) (raw : pystr) (parsed : option json) : response :=
  {| status_code := sc; content := raw; text := raw;
     resp_json := parsed; headers := [] |}.

(** A response whose body is not JSON. *)
Definition bad_gateway : response :=
  reply 502 (py "<html>Bad Gateway</html>") None.

(** An event record as the API lists it, and a listing that holds it. *)
Definition sample_event : dict :=
  [(py "date_id", JStr (py "2025-10-06#abc123"));
   (py "title", JStr (py "Rehearsal"));
   (py "post", jstrs [py "moms"]);
   (py "posting", jstrs []);
   (py "posted", jstrs [py "patch"])].

Definition sample_listing : response :=
  reply 200 (py "{}") (Some (JObj [(py "items", JArr [JObj sample_event])])).

(** An identifier with a ["#"] and characters outside ASCII. *)
Definition sample_date_id : pystr :=
  py "2025-10-06#abc123" ++ [233; 8364; 128512].

(** An edit form that leaves a fetched record as it is. *)
Definition sample_body : dict :=
  [(py "title", JStr (py "Rehearsal")); (py "time", JStr (py "7 pm"));
   (py "description", JNull);
   (py "post", jstrs [py "moms"; py "patch"])].

Definition sample_edit : edit_form :=
  {| title_e := Some (py "Rehearsal"); time_e := Some (py "7 pm");
     desc_e := [];
     post_e := [py "patch"; py "moms"]; posting_e := []; posted_e := [];
     save := true; delete := false |}.

(* ================================================================== *)
(** ** Configuration and helpers for the further properties *)
(* ================================================================== *)

(** [s.rstrip(c)] for a one-character argument. *)
Fixpoint rstrip (c : Z) (s : pystr) : pystr :=
  match s with
  | [] => []
  | x :: s' =>
      match rstrip c s' with
      | [] => if x =? c then [] else [x]
      | r => x :: r
      end
  end.

(** app.py, lines 15-21: the configuration read from the environment
    ([os.getenv] gives [""] for an unset variable).  [None] stands for
    the warning followed by [st.stop()]. *)
Definition configure (env_base env_key : pystr) : option (pystr * pystr) :=
  let api_base := rstrip 47 env_base in
  let api_key := env_key in
  if negb (nonempty api_base) || negb (nonempty api_key) then None
  else Some (api_base, api_key).

(** The list stored under [k] in a payload or patch; nothing when the
    key is absent. *)
Definition listed (k : pystr) (d : dict) : list json :=
  match dict_get k d with
  | Some (JArr l) => l
  | _ => []
  end.

(** Values a [for] loop accepts. *)
Definition iterable (v : json) : Prop :=
  match v with
  | JArr _ | JStr _ | JObj _ => True
  | _ => False
  end.

(** The records the loop of [list_events] gets through: a dict whose
    [date_id], when present, is a str and whose channel fields, when
    present, can be iterated. *)
Definition augmentable (it : json) : Prop :=
  exists d : dict,
    it = JObj d
    /\ (dict_get (py "date_id") d = None
        \/ exists s, dict_get (py "date_id") d = Some (JStr s))
    /\ Forall (fun k => dict_get k d = None
                        \/ exists v, dict_get k d = Some v /\ iterable v)
         [py "post"; py "posting"; py "posted"].

(** The requests of the three operations on one event. *)
Definition event_request (E : env) (method path : pystr)
  (data : option json) : request :=
  {| rq_method := method; rq_url := API_BASE E ++ path;
     rq_headers := HEADERS E; rq_data := data |}.

(** The body [req] returns for a response. *)
Definition body_of (resp : response) : json :=
  match content resp with
  | [] => JNull
  | _ :: _ =>
      match resp_json resp with
      | Some v => v
      | None => JObj [(py "raw", JStr (text resp))]
      end
  end.

(** Field [k] of record [it] is present and holds [v]. *)
Definition field_is (k : pystr) (it v : json) : Prop :=
  exists d : dict, it = JObj d /\ dict_get k d = Some v.

(** Record [it] has no field [k]. *)
Definition field_missing (k : pystr) (it : json) : Prop :=
  exists d : dict, it = JObj d /\ dict_get k d = None.

(** What the edit selector offers for one listed record: line 161,
    [it["date_id"]]. *)
Definition option_of (it : json) : res json :=
  match it with
  | JObj d =>
      match dict_get (py "date_id") d with
      | Some v => Ok v
      | None => Raise KeyError
      end
  | _ => Raise TypeError
  end.

(** *** Further fixtures *)

Definition empty_ok : response := reply 200 [] None.

Definition html_ok : response := reply 200 (py "<html>hello</html>") None.

Definition no_items_ok : response := reply 200 (py "{}") (Some (JObj [])).

Definition dateless_event : dict := [(py "title", JStr (py "Picnic"))].

Definition dateless_listing : response :=
  reply 200 (py "{}") (Some (JObj [(py "items", JArr [JObj dateless_event])])).

Definition created : response :=
  {| status_code := 201; content := []; text := []; resp_json := None;
     headers := [(py "location", py "/events/private/2025-10-06%23abc123")] |}.


(** A fetched record whose time and description are [None], and its
    edit form as it comes up, nothing typed: the Time widget, started
    from [None], holds [None]; the Description widget, started from the
    empty string, holds that. *)
Definition null_time_body : dict :=
  [(py "date_id", JStr (py "2025-10-06#abc123"));
   (py "title", JStr (py "Rehearsal"));
   (py "time", JNull); (py "description", JNull);
   (py "post", jstrs [py "moms"])].

Definition untouched_edit : edit_form :=
  {| title_e := Some (py "Rehearsal"); time_e := None; desc_e := [];
     post_e := [py "moms"]; posting_e := []; posted_e := [];
     save := true; delete := false |}.

(** The form [f] with another value in its Time widget. *)
Definition with_time (t : option pystr) (f : edit_form) : edit_form :=
  {| title_e := title_e f; time_e := t; desc_e := desc_e f;
     post_e := post_e f; posting_e := posting_e f; posted_e := posted_e f;
     save := save f; delete := delete f |}.


(** The answers to an update that went through and to a delete. *)
Definition saved : response := reply 200 (py "{}") (Some (JObj [])).

Definition no_content : response := reply 204 [] None.

Definition timeout_env : env :=
  fixed_env (Raise (RequestException (py "timed out"))).

Definition sample_path : pystr := py "/events/private/2025-10-06%23abc123".

(* ================================================================== *)
(** * Properties *)
(* ================================================================== *)

(** ** The order on strings *)

Lemma str_ltb_irrefl (a : pystr) : str_ltb a a = false.
Proof.
  induction a as [|x a IH]; simpl; [reflexivity|].
  rewrite Z.ltb_irrefl, Z.eqb_refl. exact IH.
Qed.

Lemma str_ltb_cons (x y : Z) (a b : pystr) :
  str_ltb (x :: a) (y :: b) = true <-> x < y \/ (x = y /\ str_ltb a b = true).
Proof.
  simpl. rewrite orb_true_iff, andb_true_iff, Z.ltb_lt, Z.eqb_eq. tauto.
Qed.

Lemma str_ltb_trans (a b c : pystr) :
  str_ltb a b = true -> str_ltb b c = true -> str_ltb a c = true.
Proof.
  revert b c. induction a as [|x a IH]; intros [|y b] [|z c]; try discriminate;
    try reflexivity.
  rewrite !str_ltb_cons. intros [H1|[-> H1]] [H2|[-> H2]].
  - left; lia.
  - left; lia.
  - left; lia.
  - right; split; [reflexivity|]. eapply IH; eassumption.
Qed.

Lemma str_ltb_trichotomy (a b : pystr) :
  str_ltb a b = true \/ a = b \/ str_ltb b a = true.
Proof.
  revert b. induction a as [|x a IH]; intros [|y b]; simpl; auto.
  destruct (Z.lt_trichotomy x y) as [H|[->|H]].
  - left. apply orb_true_iff. left. apply Z.ltb_lt, H.
  - rewrite Z.ltb_irrefl, Z.eqb_refl. simpl.
    destruct (IH b) as [H|[->|H]]; auto.
  - right; right. apply orb_true_iff. left. apply Z.ltb_lt, H.
Qed.

Lemma str_ltb_asym (a b : pystr) : str_ltb a b = true -> str_ltb b a = false.
Proof.
  intros H. destruct (str_ltb b a) eqn:Hba; [|reflexivity].
  pose proof (str_ltb_trans _ _ _ H Hba) as Haa.
  rewrite str_ltb_irrefl in Haa. discriminate.
Qed.

Lemma str_le_lt_eq (a b : pystr) : str_le a b <-> str_lt a b \/ a = b.
Proof.
  unfold str_le, str_lt. split.
  - intros H. destruct (str_ltb_trichotomy a b) as [?|[?|Hba]]; auto.
    congruence.
  - intros [H| ->]; [apply str_ltb_asym, H | apply str_ltb_irrefl].
Qed.

#[global] Instance str_le_total : Total str_le.
Proof.
  intros a b. rewrite !str_le_lt_eq. unfold str_lt.
  destruct (str_ltb_trichotomy a b) as [?|[?|?]]; auto.
Qed.

#[global] Instance str_le_trans : Transitive str_le.
Proof.
  intros a b c. rewrite !str_le_lt_eq. unfold str_lt.
  intros [H1| ->] [H2| ->]; auto. left. eapply str_ltb_trans; eassumption.
Qed.

#[global] Instance str_le_antisymm : AntiSymm (=) str_le.
Proof.
  intros a b. rewrite !str_le_lt_eq. unfold str_lt.
  intros [H1|?] [H2|?]; auto.
  apply str_ltb_asym in H1. congruence.
Qed.

(** ** [sorted]: the ascending, duplicate-free enumeration of a set *)

Lemma sorted_list_perm (l : list pystr) : sorted_list l ≡ₚ l.
Proof. apply merge_sort_Permutation. Qed.

Lemma sorted_list_Sorted (l : list pystr) : Sorted str_le (sorted_list l).
Proof. apply (Sorted_merge_sort str_le). Qed.

(** The result of sorting does not depend on the order in which the
    elements are met, so the iteration order of a Python set does not
    show in [sorted]. *)
Lemma sorted_list_order_independent (l1 l2 : list pystr) :
  l1 ≡ₚ l2 -> sorted_list l1 = sorted_list l2.
Proof.
  intros Hp. apply (Sorted_unique str_le); try apply sorted_list_Sorted.
  rewrite !sorted_list_perm. exact Hp.
Qed.

(** Any ascending arrangement of the elements is the one [sorted_list]
    returns. *)
Lemma sorted_list_unique (l l' : list pystr) :
  l' ≡ₚ l -> Sorted str_le l' -> l' = sorted_list l.
Proof.
  intros Hp Hs. apply (Sorted_unique str_le); [exact Hs|apply sorted_list_Sorted|].
  rewrite sorted_list_perm. exact Hp.
Qed.

Lemma elem_of_sorted (s : gset pystr) (x : pystr) : x ∈ sorted s <-> x ∈ s.
Proof. unfold sorted. rewrite sorted_list_perm. apply elem_of_elements. Qed.

Lemma NoDup_sorted (s : gset pystr) : NoDup (sorted s).
Proof. unfold sorted. rewrite sorted_list_perm. apply NoDup_elements. Qed.

Lemma Sorted_le_lt (l : list pystr) :
  NoDup l -> StronglySorted str_le l -> StronglySorted str_lt l.
Proof.
  induction 2 as [|x l Hs IH Hall]; constructor.
  - apply IH. eapply NoDup_cons_1_2; eassumption.
  - apply NoDup_cons in H as [Hx _].
    rewrite Forall_forall in *. intros y Hy.
    destruct (proj1 (str_le_lt_eq x y) (Hall y Hy)) as [?| ->]; [assumption|].
    contradiction.
Qed.

Lemma sorted_ascending (s : gset pystr) : StronglySorted str_lt (sorted s).
Proof.
  apply Sorted_le_lt; [apply NoDup_sorted|].
  apply Sorted_StronglySorted; [apply _|]. apply sorted_list_Sorted.
Qed.

(** Sorting the set of an already ascending list gives the list back. *)
Lemma sorted_list_to_set (l : list pystr) :
  StronglySorted str_lt l -> sorted (list_to_set l) = l.
Proof.
  intros Hl.
  assert (Hnd : NoDup l).
  { induction Hl as [|x l Hs IH Hall]; constructor; [|exact IH].
    intros Hx. rewrite Forall_forall in Hall. specialize (Hall _ Hx).
    unfold str_lt in Hall. rewrite str_ltb_irrefl in Hall. discriminate. }
  apply (Sorted_unique str_le).
  - apply sorted_list_Sorted.
  - apply StronglySorted_Sorted.
    induction Hl as [|x l Hs IH Hall]; constructor.
    + apply IH. eapply NoDup_cons_1_2; eassumption.
    + eapply Forall_impl; [exact Hall|]. intros y Hy.
      apply str_le_lt_eq. left. exact Hy.
  - unfold sorted. rewrite sorted_list_perm. apply elements_list_to_set, Hnd.
Qed.

Lemma sorted_sorted (s : gset pystr) : sorted (list_to_set (sorted s)) = sorted s.
Proof. apply sorted_list_to_set, sorted_ascending. Qed.

Lemma list_to_set_sorted (s : gset pystr) :
  list_to_set (sorted s) = s.
Proof.
  apply set_eq. intros x. rewrite elem_of_list_to_set. apply elem_of_sorted.
Qed.

Lemma elem_of_or_nil (x : pystr) (o : option (list pystr)) :
  x ∈ or_nil o <-> exists l, o = Some l /\ x ∈ l.
Proof.
  destruct o as [[|y l]|]; simpl; split.
  - intros H. inversion H.
  - intros (l' & [= <-] & H). exact H.
  - intros H. eexists; split; [reflexivity|exact H].
  - intros (l' & [= <-] & H). exact H.
  - intros H. inversion H.
  - intros (l' & [=] & _).
Qed.

Lemma or_nil_Some (l : list pystr) : or_nil (Some l) = l.
Proof. destruct l; reflexivity. Qed.

(** ** The mutual-exclusion reconciler *)

Lemma enforce_mutual_exclusion_sets (a b c : option (list pystr)) :
  enforce_mutual_exclusion a b c =
  (sorted (list_to_set (or_nil a)),
   sorted (list_to_set (or_nil b) ∖ list_to_set (or_nil a)),
   sorted (list_to_set (or_nil c)
           ∖ (list_to_set (or_nil a)
              ∪ list_to_set (or_nil b) ∖ list_to_set (or_nil a)))).
Proof. reflexivity. Qed.

Lemma selected_or_nil (x : pystr) (a : option (list pystr)) :
  selected x a <-> x ∈ or_nil a.
Proof.
  rewrite elem_of_or_nil. destruct a as [l|]; simpl; split.
  - intros H. exists l. split; [reflexivity|exact H].
  - intros (l' & [= <-] & H). exact H.
  - intros [].
  - intros (l' & [=] & _).
Qed.

Lemma selected_list_to_set (a a' : option (list pystr)) :
  (forall x, selected x a' <-> selected x a) ->
  list_to_set (or_nil a') =@{gset pystr} list_to_set (or_nil a).
Proof.
  intros H. apply set_eq. intros x.
  rewrite !elem_of_list_to_set, <- !selected_or_nil. apply H.
Qed.

(** C1.  For all inputs, each [None] or a list of strings, the
    reconciler returns three lists in which no element occurs twice,
    neither inside a list nor across two of them (the lists are pairwise
    disjoint); an element of some input is in exactly the list of the
    highest-priority input that had it ([post] before [posting] before
    [posted]), nothing else is in any list, and each list is strictly
    ascending in Python's order on strings.  Inputs with the same
    elements, in whatever order and however often they list them, give
    the same three lists. *)
Theorem enforce_mutual_exclusion_partition (a b c : option (list pystr)) :
  let '(o1, o2, o3) := enforce_mutual_exclusion a b c in
  NoDup (o1 ++ o2 ++ o3)
  /\ (forall x, x ∈ o1 <-> selected x a)
  /\ (forall x, x ∈ o2 <-> ~ selected x a /\ selected x b)
  /\ (forall x, x ∈ o3 <-> ~ selected x a /\ ~ selected x b /\ selected x c)
  /\ (forall x, selected x a \/ selected x b \/ selected x c
                <-> x ∈ o1 ++ o2 ++ o3)
  /\ StronglySorted str_lt o1
  /\ StronglySorted str_lt o2
  /\ StronglySorted str_lt o3
  /\ (forall a' b' c',
         (forall x, selected x a' <-> selected x a) ->
         (forall x, selected x b' <-> selected x b) ->
         (forall x, selected x c' <-> selected x c) ->
         enforce_mutual_exclusion a' b' c' = (o1, o2, o3)).
Proof.
  rewrite enforce_mutual_exclusion_sets.
  assert (Hsame : forall a' b' c',
             (forall x, selected x a' <-> selected x a) ->
             (forall x, selected x b' <-> selected x b) ->
             (forall x, selected x c' <-> selected x c) ->
             enforce_mutual_exclusion a' b' c'
             = (sorted (list_to_set (or_nil a)),
                sorted (list_to_set (or_nil b) ∖ list_to_set (or_nil a)),
                sorted (list_to_set (or_nil c)
                        ∖ (list_to_set (or_nil a)
                           ∪ list_to_set (or_nil b) ∖ list_to_set (or_nil a))))).
  { intros a' b' c' H1 H2 H3. rewrite enforce_mutual_exclusion_sets.
    rewrite (selected_list_to_set _ _ H1), (selected_list_to_set _ _ H2),
      (selected_list_to_set _ _ H3). reflexivity. }
  assert (Ha : forall x, selected x a <-> x ∈ (list_to_set (or_nil a) : gset pystr))
    by (intros; rewrite elem_of_list_to_set; apply selected_or_nil).
  assert (Hb : forall x, selected x b <-> x ∈ (list_to_set (or_nil b) : gset pystr))
    by (intros; rewrite elem_of_list_to_set; apply selected_or_nil).
  assert (Hc : forall x, selected x c <-> x ∈ (list_to_set (or_nil c) : gset pystr))
    by (intros; rewrite elem_of_list_to_set; apply selected_or_nil).
  set (s1 := list_to_set (or_nil a) : gset pystr) in *.
  set (s2 := list_to_set (or_nil b) : gset pystr) in *.
  set (s3 := list_to_set (or_nil c) : gset pystr) in *.
  split.
  { rewrite !NoDup_app. split; [apply NoDup_sorted|]. split.
    - intros x. rewrite elem_of_app, !elem_of_sorted. set_solver.
    - split; [apply NoDup_sorted|]. split; [|apply NoDup_sorted].
      intros x. rewrite !elem_of_sorted. set_solver. }
  split. { intros x. rewrite elem_of_sorted, Ha. reflexivity. }
  split. { intros x. rewrite elem_of_sorted, Ha, Hb. set_solver. }
  split.
  { intros x. rewrite elem_of_sorted, Ha, Hb, Hc.
    destruct (decide (x ∈ s1)); [set_solver|].
    destruct (decide (x ∈ s2)); set_solver. }
  split.
  { intros x. rewrite !elem_of_app, !elem_of_sorted, Ha, Hb, Hc.
    destruct (decide (x ∈ s1)); [set_solver|].
    destruct (decide (x ∈ s2)); set_solver. }
  split; [apply sorted_ascending|]. split; [apply sorted_ascending|].
  split; [apply sorted_ascending|]. exact Hsame.
Qed.

(** C2.  The reconciler is idempotent: applied to its own result it
    returns that result. *)
Theorem enforce_mutual_exclusion_idempotent (a b c : option (list pystr)) :
  reconcile3 (enforce_mutual_exclusion a b c) = enforce_mutual_exclusion a b c.
Proof.
  rewrite enforce_mutual_exclusion_sets. unfold reconcile3.
  rewrite enforce_mutual_exclusion_sets, !or_nil_Some, !list_to_set_sorted.
  set (s1 := list_to_set (or_nil a) : gset pystr).
  set (s2 := list_to_set (or_nil b) : gset pystr).
  set (s3 := list_to_set (or_nil c) : gset pystr).
  replace (s2 ∖ s1 ∖ s1) with (s2 ∖ s1) by set_solver.
  replace (s3 ∖ (s1 ∪ s2 ∖ s1) ∖ (s1 ∪ s2 ∖ s1))
    with (s3 ∖ (s1 ∪ s2 ∖ s1)) by set_solver.
  reflexivity.
Qed.

(** C10.  The reconciler is a total function of its three arguments:
    [None] in any position gives what the empty list gives there, and
    whatever the inputs, duplicates included, each returned list is
    duplicate-free and strictly ascending; repeating the elements of an
    input does not change the result. *)
Theorem enforce_mutual_exclusion_degenerate (a b c : option (list pystr)) :
  enforce_mutual_exclusion None b c = enforce_mutual_exclusion (Some []) b c
  /\ enforce_mutual_exclusion a None c = enforce_mutual_exclusion a (Some []) c
  /\ enforce_mutual_exclusion a b None = enforce_mutual_exclusion a b (Some [])
  /\ enforce_mutual_exclusion
       (Some (or_nil a ++ or_nil a)) (Some (or_nil b ++ or_nil b))
       (Some (or_nil c ++ or_nil c))
     = enforce_mutual_exclusion a b c
  /\ (let '(o1, o2, o3) := enforce_mutual_exclusion a b c in
      (NoDup o1 /\ NoDup o2 /\ NoDup o3)
      /\ StronglySorted str_lt o1
      /\ StronglySorted str_lt o2
      /\ StronglySorted str_lt o3)
  /\ enforce_mutual_exclusion
       (Some [py "patch"; py "moms"; py "patch"]) None
       (Some [py "test"; py "test"; py "moms"])
     = ([py "moms"; py "patch"], [], [py "test"]).
Proof.
  split; [reflexivity|]. split; [reflexivity|]. split; [reflexivity|].
  split.
  { rewrite !enforce_mutual_exclusion_sets, !or_nil_Some.
    rewrite !list_to_set_app_L.
    replace (list_to_set (or_nil a) ∪ list_to_set (or_nil a))
      with (list_to_set (or_nil a) : gset pystr) by set_solver.
    replace (list_to_set (or_nil b) ∪ list_to_set (or_nil b))
      with (list_to_set (or_nil b) : gset pystr) by set_solver.
    replace (list_to_set (or_nil c) ∪ list_to_set (or_nil c))
      with (list_to_set (or_nil c) : gset pystr) by set_solver.
    reflexivity. }
  split; [|vm_compute; reflexivity].
  rewrite enforce_mutual_exclusion_sets.
  repeat split; first [apply NoDup_sorted | apply sorted_ascending].
Qed.

(** ** Percent-encoding *)

(** Decide the integer comparisons of the goal, closing by arithmetic
    the branches that cannot happen. *)
Ltac cmp :=
  repeat match goal with
    | |- context [?a <=? ?b] => destruct (Z.leb_spec a b); try lia
    | |- context [?a <? ?b] => destruct (Z.ltb_spec a b); try lia
    | |- context [?a =? ?b] => destruct (Z.eqb_spec a b); try lia
    end; simpl.

Lemma hex_value_digit (d : Z) : 0 <= d < 16 -> hex_value (hex_digit d) = Some d.
Proof.
  intros Hd. unfold hex_value, hex_digit.
  destruct (Z.ltb_spec d 10); cmp; f_equal; lia.
Qed.

Lemma always_safe_not_percent (b : Z) :
  always_safe b = true -> (b =? 37) = false.
Proof. unfold always_safe. cmp; intros; try discriminate; reflexivity. Qed.

Lemma unquote_quote_byte (b : Z) (t : pystr) :
  is_byte b ->
  unquote_to_bytes (quote_byte [] b ++ t) = b :: unquote_to_bytes t.
Proof.
  intros Hb. unfold is_byte in Hb. unfold quote_byte.
  replace (bool_decide (b ∈ [])) with false
    by (symmetry; apply bool_decide_eq_false; apply not_elem_of_nil).
  rewrite andb_false_r, orb_false_r.
  destruct (always_safe b) eqn:Hs; simpl.
  - rewrite (always_safe_not_percent b Hs). reflexivity.
  - rewrite !hex_value_digit.
    + f_equal. pose proof (Z.div_mod b 16). lia.
    + Z.to_euclidean_division_equations; lia.
    + Z.to_euclidean_division_equations; lia.
Qed.

Lemma unquote_quote_bytes (bs : list Z) :
  Forall is_byte bs -> unquote_to_bytes (quote_from_bytes bs []) = bs.
Proof.
  unfold quote_from_bytes. induction 1 as [|b bs Hb _ IH]; [reflexivity|].
  rewrite fmap_cons. simpl concat.
  rewrite unquote_quote_byte by exact Hb. f_equal. exact IH.
Qed.

(** ** UTF-8 *)

Lemma utf8_decode_1 (b0 : Z) (t : list Z) :
  0 <= b0 < 128 -> utf8_decode (b0 :: t) = cons b0 <$> utf8_decode t.
Proof. intros H. simpl. cmp. reflexivity. Qed.

Lemma utf8_decode_2 (b0 b1 : Z) (t : list Z) :
  194 <= b0 <= 223 -> 128 <= b1 <= 191 ->
  utf8_decode (b0 :: b1 :: t)
  = cons ((b0 - 192) * 64 + (b1 - 128)) <$> utf8_decode t.
Proof. intros H0 H1. simpl. unfold is_cont. cmp. reflexivity. Qed.

Lemma utf8_decode_3 (b0 b1 b2 : Z) (t : list Z) :
  let c := (b0 - 224) * 4096 + (b1 - 128) * 64 + (b2 - 128) in
  224 <= b0 <= 239 -> 128 <= b1 <= 191 -> 128 <= b2 <= 191 ->
  2048 <= c -> is_surrogate c = false ->
  utf8_decode (b0 :: b1 :: b2 :: t) = cons c <$> utf8_decode t.
Proof.
  intros c H0 H1 H2 Hc Hs. simpl. fold c. rewrite Hs. unfold is_cont.
  cmp. reflexivity.
Qed.

Lemma utf8_decode_4 (b0 b1 b2 b3 : Z) (t : list Z) :
  let c := (b0 - 240) * 262144 + (b1 - 128) * 4096
           + (b2 - 128) * 64 + (b3 - 128) in
  240 <= b0 <= 244 -> 128 <= b1 <= 191 -> 128 <= b2 <= 191 ->
  128 <= b3 <= 191 -> 65536 <= c <= 1114111 ->
  utf8_decode (b0 :: b1 :: b2 :: b3 :: t) = cons c <$> utf8_decode t.
Proof.
  intros c H0 H1 H2 H3 Hc. simpl. fold c. unfold is_cont. cmp. reflexivity.
Qed.

Ltac euclid := Z.to_euclidean_division_equations; lia.

Lemma utf8_encode_cp_spec (c : Z) (bs : list Z) :
  utf8_encode_cp c = Some bs ->
  is_codepoint c /\ is_surrogate c = false /\ Forall is_byte bs
  /\ forall t, utf8_decode (bs ++ t) = cons c <$> utf8_decode t.
Proof.
  unfold utf8_encode_cp, is_codepoint, is_byte.
  destruct (Z.ltb_spec c 0); [discriminate|].
  destruct (Z.ltb_spec 1114111 c); [discriminate|]. simpl.
  destruct (Z.ltb_spec c 128).
  { intros [= <-]. split; [lia|]. split; [unfold is_surrogate; lia|]. split.
    - repeat constructor; lia.
    - intros t. apply utf8_decode_1. lia. }
  destruct (Z.ltb_spec c 2048).
  { intros [= <-]. split; [lia|]. split; [unfold is_surrogate; lia|]. split.
    - repeat constructor; euclid.
    - intros t. simpl app. rewrite utf8_decode_2 by euclid.
      do 2 f_equal. euclid. }
  destruct (Z.ltb_spec c 65536).
  { destruct (is_surrogate c) eqn:Hs; [discriminate|].
    intros [= <-]. split; [lia|]. split; [reflexivity|]. split.
    - repeat constructor; euclid.
    - intros t. simpl app.
      assert (Hc : (224 + c / 4096 - 224) * 4096
                   + (128 + (c / 64) mod 64 - 128) * 64
                   + (128 + c mod 64 - 128) = c) by euclid.
      rewrite utf8_decode_3; rewrite ?Hc; try assumption; try reflexivity;
        euclid. }
  intros [= <-]. split; [lia|]. split; [unfold is_surrogate; lia|]. split.
  - repeat constructor; euclid.
  - intros t. simpl app.
    assert (Hc : (240 + c / 262144 - 240) * 262144
                 + (128 + (c / 4096) mod 64 - 128) * 4096
                 + (128 + (c / 64) mod 64 - 128) * 64
                 + (128 + c mod 64 - 128) = c) by euclid.
    rewrite utf8_decode_4; rewrite ?Hc; try reflexivity; euclid.
Qed.

Lemma utf8_encode_cp_total (c : Z) :
  is_codepoint c -> is_surrogate c = false ->
  exists bs, utf8_encode_cp c = Some bs.
Proof.
  unfold utf8_encode_cp, is_codepoint. intros Hc Hs. rewrite Hs.
  destruct (Z.ltb_spec c 0); [lia|].
  destruct (Z.ltb_spec 1114111 c); [lia|]. simpl.
  repeat match goal with |- context [if ?b then _ else _] => destruct b end;
    eexists; reflexivity.
Qed.

Lemma utf8_encode_spec (s : pystr) (bs : list Z) :
  utf8_encode s = Some bs ->
  Forall is_byte bs /\ utf8_decode bs = Some s.
Proof.
  revert bs. induction s as [|c s IH]; intros bs; simpl.
  - intros [= <-]. split; [constructor|reflexivity].
  - destruct (utf8_encode_cp c) as [b1|] eqn:Hc; [|discriminate].
    destruct (utf8_encode s) as [b2|] eqn:Hs; [|discriminate].
    intros [= <-]. destruct (IH _ eq_refl) as [Hb Hd].
    destruct (utf8_encode_cp_spec _ _ Hc) as (_ & _ & Hb1 & Hd1).
    split; [apply Forall_app; split; assumption|].
    rewrite Hd1, Hd. reflexivity.
Qed.

Lemma utf8_encode_total (s : pystr) :
  is_str s -> Forall (fun c => is_surrogate c = false) s ->
  exists bs, utf8_encode s = Some bs.
Proof.
  unfold is_str. induction s as [|c s IH]; intros Hv Hs; simpl.
  - eexists; reflexivity.
  - apply Forall_cons in Hv as [Hc Hv]. apply Forall_cons in Hs as [Hsc Hs].
    destruct (utf8_encode_cp_total c Hc Hsc) as [b1 ->].
    destruct (IH Hv Hs) as [b2 ->]. eexists; reflexivity.
Qed.

(** Whatever [enc] returns decodes to its argument. *)
Lemma unquote_enc (s e : pystr) : enc s = Ok e -> unquote e = Some s.
Proof.
  unfold enc, quote, unquote.
  destruct (utf8_encode s) as [bs|] eqn:Hbs; [|discriminate].
  intros [= <-]. destruct (utf8_encode_spec _ _ Hbs) as [Hb Hd].
  rewrite unquote_quote_bytes by exact Hb. exact Hd.
Qed.

Lemma enc_injective (s1 s2 e : pystr) : enc s1 = Ok e -> enc s2 = Ok e -> s1 = s2.
Proof.
  intros H1 H2. apply unquote_enc in H1, H2. congruence.
Qed.

(** [enc] raises exactly on a string with a surrogate code point. *)
Lemma enc_raises (s : pystr) :
  is_str s ->
  enc s = Raise UnicodeEncodeError <-> Exists (fun c => is_surrogate c = true) s.
Proof.
  intros Hv. split.
  - intros He. destruct (decide (Forall (fun c => is_surrogate c = false) s)) as [Hs|Hs].
    + destruct (utf8_encode_total s Hv Hs) as [bs Hbs].
      unfold enc, quote in He. rewrite Hbs in He. discriminate.
    + apply not_Forall_Exists in Hs; [|intros c; apply _].
      eapply Exists_impl; [exact Hs|]. intros c Hc. simpl in Hc.
      destruct (is_surrogate c); congruence.
  - intros Hx. unfold enc, quote.
    destruct (utf8_encode s) as [bs|] eqn:Hbs; [|reflexivity].
    exfalso. revert bs Hbs. induction Hx as [c s Hc|c s Hx IH]; intros bs; simpl.
    + destruct (utf8_encode_cp c) as [b1|] eqn:Hb1; [|discriminate].
      apply utf8_encode_cp_spec in Hb1 as (_ & Hn & _). congruence.
    + apply Forall_cons in Hv as [_ Hv].
      destruct (utf8_encode_cp c); [|discriminate].
      destruct (utf8_encode s) as [b2|]; [|discriminate].
      intros _. eapply IH; [exact Hv|reflexivity].
Qed.


(** C9, as the code has it.  For every string made of code points none
    of which is a surrogate, [enc] returns a result, percent-decoding
    that result gives the string back, and no other string has the same
    result. *)
Theorem enc_lossless (s : pystr) :
  is_str s -> Forall (fun c => is_surrogate c = false) s ->
  exists e, enc s = Ok e /\ unquote e = Some s
            /\ forall s', enc s' = Ok e -> s' = s.
Proof.
  intros Hv Hs. destruct (utf8_encode_total s Hv Hs) as [bs Hbs].
  exists (quote_from_bytes bs []).
  assert (He : enc s = Ok (quote_from_bytes bs []))
    by (unfold enc, quote; rewrite Hbs; reflexivity).
  split; [exact He|]. split; [apply unquote_enc, He|].
  intros s' He'. eapply enc_injective; eassumption.
Qed.

(** C9, as stated, fails: a [str] may hold a lone surrogate, and on such
    a string [enc] raises instead of returning an encoding. *)
Lemma enc_lone_surrogate :
  is_str [55296]
  /\ enc [55296] = Raise UnicodeEncodeError
  /\ ~ (exists e, enc [55296] = Ok e /\ unquote e = Some [55296]).
Proof.
  split; [repeat constructor; unfold is_codepoint; lia|].
  split; [reflexivity|]. intros (e & He & _). discriminate.
Qed.

(** ** Dicts *)

Section dict.
Context {V : Type}.
Implicit Types (d : list (pystr * V)) (k : pystr) (v : V).

Lemma dict_get_set_eq k v d : dict_get k (dict_set k v d) = Some v.
Proof.
  induction d as [|[k' v'] d IH]; simpl.
  - rewrite decide_True by reflexivity. reflexivity.
  - destruct (decide (k' = k)) as [->|Hne]; simpl.
    + rewrite decide_True by reflexivity. reflexivity.
    + rewrite decide_False by exact Hne. exact IH.
Qed.

Lemma dict_get_set_ne k k' v d :
  k <> k' -> dict_get k' (dict_set k v d) = dict_get k' d.
Proof.
  intros Hne. induction d as [|[k0 v0] d IH]; simpl.
  - rewrite decide_False by exact Hne. reflexivity.
  - destruct (decide (k0 = k)) as [->|Hk]; simpl.
    + rewrite !decide_False by exact Hne. reflexivity.
    + destruct (decide (k0 = k')); [reflexivity|exact IH].
Qed.

Lemma dict_get_set k k' v d :
  dict_get k' (dict_set k v d)
  = if decide (k = k') then Some v else dict_get k' d.
Proof.
  destruct (decide (k = k')) as [<-|Hne];
    [apply dict_get_set_eq | apply dict_get_set_ne, Hne].
Qed.

Lemma dict_set_nonempty k v d : dict_set k v d <> [].
Proof. destruct d as [|[k' v'] d]; simpl; [|destruct (decide (k' = k))]; discriminate. Qed.

End dict.

Lemma dict_get_set_if (c : bool) (k k' : pystr) (v : json) (d : dict) :
  dict_get k' (set_if c k v d)
  = if c && bool_decide (k = k') then Some v else dict_get k' d.
Proof.
  unfold set_if. destruct c; simpl; [|reflexivity].
  rewrite dict_get_set. destruct (decide (k = k')) as [Hk|Hk].
  - rewrite bool_decide_eq_true_2 by exact Hk. reflexivity.
  - rewrite bool_decide_eq_false_2 by exact Hk. reflexivity.
Qed.

Lemma set_if_nil (c : bool) (k : pystr) (v : json) (d : dict) :
  set_if c k v d = [] <-> c = false /\ d = [].
Proof.
  unfold set_if. destruct c; split.
  - intros H. destruct (dict_set_nonempty _ _ _ H).
  - intros [[=] _].
  - auto.
  - intros [_ H]; exact H.
Qed.

Lemma str_eq_true (s : pystr) (v : json) : str_eq s v = true <-> v = JStr s.
Proof.
  destruct v; simpl; try (split; [discriminate|intros [=]]).
  rewrite bool_decide_eq_true. split; [intros ->; reflexivity|intros [= ->]; reflexivity].
Qed.

Lemma strs_eq_true (l : list pystr) (v : json) :
  strs_eq l v = true <-> v = jstrs l.
Proof.
  unfold jstrs. destruct v as [| | | | |vs|]; simpl;
    try (split; [discriminate|intros [=]]).
  revert vs. induction l as [|s l IH]; intros [|v vs]; simpl;
    try (split; [discriminate|intros [=]]).
  - split; reflexivity.
  - rewrite andb_true_iff, str_eq_true, IH. split.
    + intros [-> [= ->]]. reflexivity.
    + intros [= -> ->]. split; reflexivity.
Qed.

Lemma or_empty_id (s : pystr) : or_empty s = s.
Proof. destruct s; reflexivity. Qed.

(** ** The update patch *)

Lemma no_text_truthy (v : json) : no_text v <-> truthy v = false.
Proof.
  unfold no_text. split.
  - intros [->|[->|[->|[[sg ->]|[->|[->| ->]]]]]]; reflexivity.
  - destruct v as [|b|n|x|s|l|kv]; simpl; intros H.
    + left; reflexivity.
    + right; left. rewrite H. reflexivity.
    + right; right; left. apply negb_false_iff, Z.eqb_eq in H. rewrite H.
      reflexivity.
    + right; right; right; left. destruct x; try discriminate.
      eexists; reflexivity.
    + right; right; right; right; left.
      apply negb_false_iff, bool_decide_eq_true in H. rewrite H. reflexivity.
    + right; right; right; right; right; left.
      destruct l; [reflexivity|discriminate].
    + right; right; right; right; right; right.
      destruct kv; [reflexivity|discriminate].
Qed.

Lemma text_eq_py_or_None (v : json) : text_eq None (py_or v (JStr [])) = false.
Proof.
  unfold py_or. destruct (truthy v) eqn:Hv; [|reflexivity].
  destruct v; try reflexivity. discriminate.
Qed.

Lemma same_text_spec (t : option pystr) (k : pystr) (body : dict) :
  text_eq t (py_or (dict_get_none k body) (JStr [])) = true
  <-> same_text t (dict_get k body).
Proof.
  unfold same_text. destruct t as [s|].
  - transitivity (match dict_get k body with
                  | None => s = []
                  | Some v => v = JStr s \/ (no_text v /\ s = [])
                  end).
    2:{ split; [intros H; exists s; split; [reflexivity|exact H]|].
        intros (s' & [= <-] & H). exact H. }
    unfold dict_get_none, dict_get_or, py_or, text_eq.
    destruct (dict_get k body) as [v|]; simpl.
    + rewrite no_text_truthy. destruct (truthy v) eqn:Hv; rewrite str_eq_true.
      * split; [intros H; left; exact H|]. intros [H|[H _]]; [exact H|discriminate].
      * split.
        -- intros [= ->]. right. split; reflexivity.
        -- intros [->|[_ ->]]; [|reflexivity].
           simpl in Hv. apply negb_false_iff, bool_decide_eq_true in Hv.
           rewrite Hv. reflexivity.
    + rewrite bool_decide_eq_true. reflexivity.
  - rewrite text_eq_py_or_None. split; [discriminate|].
    intros (s & [=] & _).
Qed.

Lemma same_list_spec (l : list pystr) (k : pystr) (body : dict) :
  strs_eq l (dict_get_or k (JArr []) body) = true
  <-> same_list l (dict_get k body).
Proof.
  unfold dict_get_or, same_list. rewrite strs_eq_true.
  destruct (dict_get k body) as [v|]; simpl; [reflexivity|].
  unfold jstrs. destruct l; simpl; split; try discriminate; reflexivity.
Qed.

Lemma same_title_spec (t : option pystr) (body : dict) :
  text_eq t (dict_get_none (py "title") body) = true
  <-> same_title t (dict_get (py "title") body).
Proof.
  unfold same_title, dict_get_none, dict_get_or.
  destruct t as [s|]; simpl.
  - rewrite str_eq_true.
    destruct (dict_get (py "title") body); simpl; split; congruence.
  - destruct (dict_get (py "title") body) as [v|]; simpl.
    + destruct v; split; try discriminate; try reflexivity;
        try (intros [H|H]; discriminate).
      intros _. right. reflexivity.
    + split; [intros _; left|]; reflexivity.
Qed.

(** Evaluate the comparisons between field names. *)
Ltac eval_keys :=
  repeat match goal with
    | |- context [bool_decide (py ?a = py ?b)] =>
        let r := eval vm_compute in (bool_decide (py a = py b)) in
        change (bool_decide (py a = py b)) with r
    end;
  rewrite ?andb_true_r, ?andb_false_r.

Lemma build_patch_get (body : dict) (t ti : option pystr) (de : pystr)
  (p1 p2 p3 : list pystr) (k : pystr) :
  dict_get k (build_patch body t ti de p1 p2 p3)
  = if negb (strs_eq p3 (dict_get_or (py "posted") (JArr []) body))
       && bool_decide (py "posted" = k) then Some (jstrs p3)
    else if negb (strs_eq p2 (dict_get_or (py "posting") (JArr []) body))
            && bool_decide (py "posting" = k) then Some (jstrs p2)
    else if negb (strs_eq p1 (dict_get_or (py "post") (JArr []) body))
            && bool_decide (py "post" = k) then Some (jstrs p1)
    else if negb (str_eq (or_empty de)
                    (py_or (dict_get_none (py "description") body) (JStr [])))
            && bool_decide (py "description" = k) then Some (JStr de)
    else if negb (text_eq ti (py_or (dict_get_none (py "time") body) (JStr [])))
            && bool_decide (py "time" = k) then Some (jtext ti)
    else if negb (text_eq t (dict_get_none (py "title") body))
            && bool_decide (py "title" = k) then Some (jtext t)
    else None.
Proof. unfold build_patch. rewrite !dict_get_set_if. reflexivity. Qed.

Lemma build_patch_nil (body : dict) (t ti : option pystr) (de : pystr)
  (p1 p2 p3 : list pystr) :
  build_patch body t ti de p1 p2 p3 = []
  <-> text_eq t (dict_get_none (py "title") body) = true
      /\ text_eq ti (py_or (dict_get_none (py "time") body) (JStr [])) = true
      /\ str_eq (or_empty de)
           (py_or (dict_get_none (py "description") body) (JStr [])) = true
      /\ strs_eq p1 (dict_get_or (py "post") (JArr []) body) = true
      /\ strs_eq p2 (dict_get_or (py "posting") (JArr []) body) = true
      /\ strs_eq p3 (dict_get_or (py "posted") (JArr []) body) = true.
Proof.
  unfold build_patch. rewrite !set_if_nil, !negb_false_iff. tauto.
Qed.

Lemma patch_field_intro (patch : dict) (k : pystr) (edited : json)
  (same : Prop) (c : bool) :
  (c = true <-> same) ->
  dict_get k patch = (if negb c then Some edited else None) ->
  patch_field patch k edited same.
Proof.
  intros Hc Hg. unfold patch_field. rewrite Hg. destruct c; simpl.
  - left. split; [apply Hc|]; reflexivity.
  - right. split; [|reflexivity]. intros H. apply Hc in H. discriminate.
Qed.

Lemma same_desc_spec (de : pystr) (body : dict) :
  str_eq (or_empty de)
    (py_or (dict_get_none (py "description") body) (JStr [])) = true
  <-> same_text (Some de) (dict_get (py "description") body).
Proof. rewrite or_empty_id. apply (same_text_spec (Some de)). Qed.

Lemma build_patch_fields (body : dict) (t ti : option pystr) (de : pystr)
  (p1 p2 p3 : list pystr) :
  let patch := build_patch body t ti de p1 p2 p3 in
  patch_field patch (py "title") (edited_text t)
    (same_title t (dict_get (py "title") body))
  /\ patch_field patch (py "time") (edited_text ti)
       (same_text ti (dict_get (py "time") body))
  /\ patch_field patch (py "description") (JStr de)
       (same_text (Some de) (dict_get (py "description") body))
  /\ patch_field patch (py "post") (JArr (JStr <$> p1))
       (same_list p1 (dict_get (py "post") body))
  /\ patch_field patch (py "posting") (JArr (JStr <$> p2))
       (same_list p2 (dict_get (py "posting") body))
  /\ patch_field patch (py "posted") (JArr (JStr <$> p3))
       (same_list p3 (dict_get (py "posted") body)).
Proof.
  intros patch. subst patch.
  repeat split; eapply patch_field_intro;
    try (rewrite build_patch_get; eval_keys; simpl; reflexivity).
  - apply same_title_spec.
  - apply same_text_spec.
  - apply same_desc_spec.
  - apply same_list_spec.
  - apply same_list_spec.
  - apply same_list_spec.
Qed.

Lemma build_patch_keys (body : dict) (t ti : option pystr) (de : pystr)
  (p1 p2 p3 : list pystr) (k : pystr) :
  dict_get k (build_patch body t ti de p1 p2 p3) <> None ->
  k ∈ [py "title"; py "time"; py "description";
       py "post"; py "posting"; py "posted"].
Proof.
  rewrite build_patch_get. intros H.
  repeat match type of H with
    | context [bool_decide (?a = k)] =>
        destruct (decide (a = k)) as [<-|Hk];
        [set_solver|
         rewrite (bool_decide_eq_false_2 _ Hk), andb_false_r in H; clear Hk]
    end.
  congruence.
Qed.

Lemma save_click_noop (E : env) (a id : pystr) (body : dict) (f : edit_form) :
  edit_patch body f = [] ->
  save_click E a id body f = (Ok tt, [StInfo (py "No changes.")]).
Proof. unfold save_click. intros ->. reflexivity. Qed.

Lemma save_click_calls (E : env) (a id p : pystr) (body : dict) (f : edit_form) :
  edit_patch body f <> [] -> event_path a id = Ok p ->
  http_calls (snd (save_click E a id body f))
  = [put_request E p (edit_patch body f)].
Proof.
  intros Hne Hp. unfold save_click.
  destruct (edit_patch body f) as [|kv patch] eqn:Hpatch; [congruence|].
  unfold nonempty, negb, update_event. rewrite Hp.
  unfold req, put_request, lift, emit, mbind, M_bind, mret, M_ret, dict_update.
  simpl fold_left.
  match goal with |- context [http E ?r] => destruct (http E r) as [resp|e] end;
    [|reflexivity].
  destruct (status_code resp =? 200); [reflexivity|].
  match goal with |- context [body_get ?k ?b] => destruct (body_get k b) end;
    reflexivity.
Qed.

(** What the reconciler makes of three lists, in terms of the lists. *)
Lemma enforce_mutual_exclusion_lists (l1 l2 l3 o1 o2 o3 : list pystr) :
  enforce_mutual_exclusion (Some l1) (Some l2) (Some l3) = (o1, o2, o3) ->
  (forall x, x ∈ o1 <-> x ∈ l1)
  /\ (forall x, x ∈ o2 <-> x ∈ l2 /\ (x ∉ l1))
  /\ (forall x, x ∈ o3 <-> x ∈ l3 /\ (x ∉ l1) /\ (x ∉ l2))
  /\ StronglySorted str_lt o1
  /\ StronglySorted str_lt o2
  /\ StronglySorted str_lt o3.
Proof.
  rewrite enforce_mutual_exclusion_sets, !or_nil_Some. intros [= <- <- <-].
  split; [intros x; rewrite elem_of_sorted; set_solver|].
  split; [intros x; rewrite elem_of_sorted; set_solver|].
  split.
  { intros x. rewrite elem_of_sorted.
    destruct (decide (x ∈ l1)); [set_solver|].
    destruct (decide (x ∈ l2)); set_solver. }
  split; [apply sorted_ascending|]. split; apply sorted_ascending.
Qed.

(** C3.  A fetched record whose [time] is [None], saved with nothing
    edited.  The Time widget, which line 169 starts from the fetched
    [None], then holds [None]; line 192 turns the fetched [None] into
    the empty string and compares: [None != ""].  So the builder puts
    ["time": None] into the patch and Save sends a PUT with it, although
    no field was changed: the update is not the no-op that unchanged
    values should give.  The description of the same record, also
    [None], stays out of the patch: lines 170 and 193 write [or ""] on
    both sides of its comparison, line 192 only on the fetched side.
    With an empty Time text instead of [None], the patch is empty and
    Save reports "No changes.". *)
Theorem edit_patch_null_time :
  edit_patch null_time_body untouched_edit = [(py "time", JNull)]
  /\ save_click (fixed_env (Ok saved)) (py "private") (py "2025-10-06#abc123")
       null_time_body untouched_edit
     = (Raise AttributeError,
        [HttpCall (put_request (fixed_env (Ok saved)) sample_path
                     [(py "time", JNull)]);
         StSuccess (py "Saved " ++ [10003])])
  /\ dict_get (py "time") null_time_body = Some JNull
  /\ dict_get (py "description") null_time_body = Some JNull
  /\ dict_get (py "description")
       (edit_patch null_time_body untouched_edit) = None
  /\ edit_patch null_time_body (with_time (Some []) untouched_edit) = []
  /\ save_click (fixed_env (Ok saved)) (py "private") (py "2025-10-06#abc123")
       null_time_body (with_time (Some []) untouched_edit)
     = (Ok tt, [StInfo (py "No changes.")]).
Proof. repeat split; vm_compute; reflexivity. Qed.

(** X27.  What the update patch holds, for every fetched record and
    every state of the edit form.  Each of the six fields is either the
    same as the fetched one and absent from the patch, or different and
    present with its edited value, and the patch has no other key.  The
    same means: for the title, the fetched value is the edited text (an
    edited [None] is the same as a missing or [None] title); for [time]
    and [description], the edited value is a text and the fetched value
    is that text, or the text is empty and the fetched value is missing,
    [None] or another false value, so that an edited [None] time is
    always in the patch; for the channel lists, the fetched value is the
    list the reconciler returned, a missing one counting as the empty
    list.  The reconciled lists are ascending and hold the selected
    channels by precedence, so reordering the raw selections changes
    nothing.  When no field differs the patch is empty, Save reports
    "No changes." and sends no request; otherwise it sends one PUT
    carrying the patch. *)
Theorem edit_patch_exact (E : env) (tab_access date_id_sel : pystr)
  (body : dict) (f : edit_form) :
  let '(post_r, posting_r, posted_r) :=
    enforce_mutual_exclusion (Some (post_e f)) (Some (posting_e f))
      (Some (posted_e f)) in
  let patch := edit_patch body f in
  let title_same := same_title (title_e f) (dict_get (py "title") body) in
  let time_same := same_text (time_e f) (dict_get (py "time") body) in
  let desc_same :=
    same_text (Some (desc_e f)) (dict_get (py "description") body) in
  let post_same := same_list post_r (dict_get (py "post") body) in
  let posting_same := same_list posting_r (dict_get (py "posting") body) in
  let posted_same := same_list posted_r (dict_get (py "posted") body) in
  (patch_field patch (py "title") (edited_text (title_e f)) title_same
   /\ patch_field patch (py "time") (edited_text (time_e f)) time_same
   /\ patch_field patch (py "description") (JStr (desc_e f)) desc_same
   /\ patch_field patch (py "post") (JArr (JStr <$> post_r)) post_same
   /\ patch_field patch (py "posting") (JArr (JStr <$> posting_r)) posting_same
   /\ patch_field patch (py "posted") (JArr (JStr <$> posted_r)) posted_same)
  /\ (forall k, dict_get k patch <> None ->
                k ∈ [py "title"; py "time"; py "description";
                     py "post"; py "posting"; py "posted"])
  /\ ((forall x, x ∈ post_r <-> x ∈ post_e f)
      /\ (forall x, x ∈ posting_r <-> x ∈ posting_e f /\ (x ∉ post_e f))
      /\ (forall x, x ∈ posted_r
                    <-> x ∈ posted_e f /\ (x ∉ post_e f)
                        /\ (x ∉ posting_e f))
      /\ StronglySorted str_lt post_r
      /\ StronglySorted str_lt posting_r
      /\ StronglySorted str_lt posted_r)
  /\ (time_e f = None -> dict_get (py "time") patch = Some JNull)
  /\ (forall f', title_e f' = title_e f -> time_e f' = time_e f ->
                 desc_e f' = desc_e f -> post_e f' ≡ₚ post_e f ->
                 posting_e f' ≡ₚ posting_e f -> posted_e f' ≡ₚ posted_e f ->
                 edit_patch body f' = patch)
  /\ (patch = [] <-> title_same /\ time_same /\ desc_same
                     /\ post_same /\ posting_same /\ posted_same)
  /\ (patch = [] ->
      save_click E tab_access date_id_sel body f
      = (Ok tt, [StInfo (py "No changes.")]))
  /\ (patch <> [] ->
      forall p, event_path tab_access date_id_sel = Ok p ->
                http_calls (snd (save_click E tab_access date_id_sel body f))
                = [put_request E p patch]).
Proof.
  destruct (enforce_mutual_exclusion (Some (post_e f)) (Some (posting_e f))
              (Some (posted_e f))) as [[p1 p2] p3] eqn:Hr.
  intros patch. intros.
  assert (Hpatch : patch
                   = build_patch body (title_e f) (time_e f) (desc_e f) p1 p2 p3)
    by (subst patch; unfold edit_patch; rewrite Hr; reflexivity).
  split; [rewrite Hpatch; apply build_patch_fields|].
  split; [rewrite Hpatch; apply build_patch_keys|].
  split; [apply enforce_mutual_exclusion_lists; exact Hr|].
  split.
  { intros Hti. rewrite Hpatch, build_patch_get, Hti. eval_keys.
    rewrite text_eq_py_or_None. reflexivity. }
  split.
  { intros f' Ht Hti Hd H1 H2 H3. subst patch. unfold edit_patch.
    rewrite !enforce_mutual_exclusion_sets, !or_nil_Some, Ht, Hti, Hd.
    rewrite (list_to_set_perm_L _ _ H1), (list_to_set_perm_L _ _ H2),
      (list_to_set_perm_L _ _ H3). reflexivity. }
  split.
  { rewrite Hpatch, build_patch_nil.
    rewrite same_title_spec, same_text_spec, same_desc_spec, !same_list_spec.
    reflexivity. }
  split; [apply save_click_noop|].
  intros Hne p Hp. apply save_click_calls; assumption.
Qed.

(** Fetched values the form leaves as they are give an empty patch, and
    Save then only reports it. *)
Example edit_patch_unchanged :
  edit_patch sample_body sample_edit = []
  /\ save_click (fixed_env (Raise KeyError)) (py "private") (py "2025-10-06#a")
       sample_body sample_edit
     = (Ok tt, [StInfo (py "No changes.")]).
Proof. split; vm_compute; reflexivity. Qed.

(** A changed title and a channel moved to [post] give a patch of those
    two fields. *)
Example edit_patch_changed :
  let body := [(py "title", JStr (py "Rehearsal"));
               (py "posting", jstrs [py "patch"])] in
  let f := {| title_e := Some (py "Concert"); time_e := Some [];
              desc_e := [];
              post_e := [py "patch"]; posting_e := [py "patch"];
              posted_e := []; save := true; delete := false |} in
  edit_patch body f
  = [(py "title", JStr (py "Concert")); (py "post", jstrs [py "patch"]);
     (py "posting", jstrs [])].
Proof. vm_compute. reflexivity. Qed.

(** The fetched list is compared as the server sent it: one that is not
    in the reconciler's order differs from the reconciled selection. *)
Example edit_patch_fetched_order :
  let body := [(py "title", JStr (py "Rehearsal"));
               (py "post", jstrs [py "patch"; py "moms"])] in
  let f := {| title_e := Some (py "Rehearsal"); time_e := Some [];
              desc_e := [];
              post_e := [py "patch"; py "moms"]; posting_e := [];
              posted_e := []; save := true; delete := false |} in
  edit_patch body f = [(py "post", jstrs [py "moms"; py "patch"])].
Proof. vm_compute. reflexivity. Qed.

(** ** The create form *)

Lemma create_click_calls (E : env) (f : create_form) :
  title f <> [] ->
  http_calls (snd (create_click E f)) = [post_request E (create_payload f)].
Proof.
  intros Ht. unfold create_click.
  rewrite bool_decide_eq_false_2 by exact Ht.
  unfold create_event, req, post_request, lift, emit, mbind, M_bind, mret,
    M_ret, dict_update.
  simpl fold_left.
  match goal with |- context [http E ?r] => destruct (http E r) as [resp|e] end;
    [|reflexivity].
  destruct (status_code resp =? 201).
  - match goal with
    | |- context [header_get ?k ?h] => destruct (header_get k h) as [[|c s]|]
    end;
      try (match goal with
           | |- context [body_get ?k ?b] => destruct (body_get k b)
           end);
      reflexivity.
  - match goal with |- context [body_get ?k ?b] => destruct (body_get k b) end;
      reflexivity.
Qed.


(** ** Requests and the event list *)

Lemma req_ok (E : env) (method path : pystr) (kw : list (pystr * pystr))
  (data : option json) (resp : response) :
  let rq := {| rq_method := method; rq_url := API_BASE E ++ path;
               rq_headers := dict_update (HEADERS E) kw; rq_data := data |} in
  http E rq = Ok resp ->
  req E method path kw data
  = (Ok (status_code resp,
         match content resp with
         | [] => JNull
         | _ :: _ =>
             match resp_json resp with
             | Some v => v
             | None => JObj [(py "raw", JStr (text resp))]
             end
         end,
         headers resp),
     [HttpCall rq]).
Proof.
  intros rq Hr. unfold req. fold rq.
  unfold lift, emit, mbind, M_bind, mret, M_ret. rewrite Hr. reflexivity.
Qed.

(** C8.  Whatever response the transport delivers, [req] returns its
    status, a body and its headers, and raises nothing on account of
    the body: an empty body gives [None], a body that parses as JSON
    gives the parsed value, and a body that does not parse gives
    [{"raw": text}]. *)
Theorem req_yields_triple (E : env) (method path : pystr)
  (kw : list (pystr * pystr)) (data : option json) (resp : response) :
  let rq := {| rq_method := method; rq_url := API_BASE E ++ path;
               rq_headers := dict_update (HEADERS E) kw; rq_data := data |} in
  http E rq = Ok resp ->
  exists body,
    req E method path kw data
    = (Ok (status_code resp, body, headers resp), [HttpCall rq])
    /\ ((content resp = [] /\ body = JNull)
        \/ (content resp <> [] /\ resp_json resp = Some body)
        \/ (content resp <> [] /\ resp_json resp = None
            /\ body = JObj [(py "raw", JStr (text resp))])).
Proof.
  intros rq Hr. eexists. split; [apply req_ok, Hr|].
  destruct (content resp) as [|c cs]; [left; split; reflexivity|].
  right. destruct (resp_json resp) as [v|].
  - left. split; [discriminate|reflexivity].
  - right. split; [discriminate|]. split; reflexivity.
Qed.


Lemma hd_split (sep : Z) (s : pystr) : hd [] (split sep s) = before sep s.
Proof.
  induction s as [|c s IH]; simpl; [reflexivity|].
  destruct (c =? sep); [reflexivity|].
  destruct (split sep s) as [|h t]; simpl in *; congruence.
Qed.


Lemma has_text_get (d : dict) (k : pystr) (s : pystr) :
  has_text d k s -> dict_get_or k (JStr []) d = JStr s.
Proof. unfold dict_get_or. intros [->|[-> ->]]; reflexivity. Qed.

Lemma has_list_get (d : dict) (k : pystr) (vs : list json) :
  has_list d k vs -> dict_get_or k (JArr []) d = JArr vs.
Proof. unfold dict_get_or. intros [->|[-> ->]]; reflexivity. Qed.

Lemma has_list_set (d : dict) (k k' : pystr) (v : json) (vs : list json) :
  k' <> k -> has_list d k vs -> has_list (dict_set k' v d) k vs.
Proof. unfold has_list. intros Hne. rewrite dict_get_set_ne by exact Hne. tauto. Qed.

Lemma augment_event (E : env) (it : json) :
  is_event it -> exists it', augment E it = Ok it' /\ augmented E it it'.
Proof.
  intros (d & id & p1 & p2 & p3 & -> & Hid & H1 & H2 & H3).
  eexists. split; [|apply augmented_intro; eassumption].
  unfold augment, as_dict, mbind, res_bind, mret, res_ret.
  rewrite (has_text_get _ _ _ Hid). simpl as_str. cbv beta iota.
  rewrite hd_split. unfold channel_pairs, mbind, res_bind, mret, res_ret.
  assert (N1 : py "date" <> py "post") by (vm_compute; discriminate).
  assert (N2 : py "date" <> py "posting") by (vm_compute; discriminate).
  assert (N3 : py "date" <> py "posted") by (vm_compute; discriminate).
  rewrite (has_list_get _ _ _ (has_list_set _ _ _ _ _ N1 H1)).
  rewrite (has_list_get _ _ _ (has_list_set _ _ _ _ _ N2 H2)).
  rewrite (has_list_get _ _ _ (has_list_set _ _ _ _ _ N3 H3)).
  simpl py_iter. cbv beta iota. rewrite app_nil_r. reflexivity.
Qed.

Lemma mapM_res_Forall2 {A B : Type} (f : A -> res B) (R : A -> B -> Prop)
  (l : list A) :
  Forall (fun a => exists b, f a = Ok b /\ R a b) l ->
  exists l', mapM_res f l = Ok l' /\ Forall2 R l l'.
Proof.
  induction 1 as [|a l (b & Hb & Hab) _ (l' & Hl & HR)]; simpl.
  - exists []. split; [reflexivity|constructor].
  - exists (b :: l'). rewrite Hb. unfold mbind, res_bind. rewrite Hl.
    split; [reflexivity|constructor; assumption].
Qed.


(** ** The theorems at concrete inputs *)

Lemma is_str_check (s : pystr) :
  forallb (fun c => (0 <=? c) && (c <=? 1114111)) s = true -> is_str s.
Proof.
  unfold is_str, is_codepoint. rewrite forallb_forall, Forall_forall.
  intros H c Hc. apply list_elem_of_In in Hc. specialize (H c Hc). lia.
Qed.

Lemma no_surrogate_check (s : pystr) :
  forallb (fun c => negb (is_surrogate c)) s = true ->
  Forall (fun c => is_surrogate c = false) s.
Proof.
  rewrite forallb_forall, Forall_forall.
  intros H c Hc. apply list_elem_of_In in Hc. specialize (H c Hc).
  apply negb_true_iff, H.
Qed.

Lemma enc_lossless_witness :
  is_str sample_date_id
  /\ Forall (fun c => is_surrogate c = false) sample_date_id
  /\ exists e, enc sample_date_id = Ok e /\ unquote e = Some sample_date_id
                /\ forall s', enc s' = Ok e -> s' = sample_date_id.
Proof.
  assert (Hv : is_str sample_date_id)
    by (apply is_str_check; vm_compute; reflexivity).
  assert (Hs : Forall (fun c => is_surrogate c = false) sample_date_id)
    by (apply no_surrogate_check; vm_compute; reflexivity).
  split; [exact Hv|]. split; [exact Hs|].
  exact (enc_lossless sample_date_id Hv Hs).
Defined.

Lemma req_yields_triple_witness :
  exists body,
    req (fixed_env (Ok bad_gateway)) (py "GET") (py "/events/private") [] None
    = (Ok (502, body, []),
       [HttpCall (list_request (fixed_env (Ok bad_gateway)) (py "private"))])
    /\ body = JObj [(py "raw", JStr (py "<html>Bad Gateway</html>"))].
Proof.
  destruct (req_yields_triple (fixed_env (Ok bad_gateway)) (py "GET")
              (py "/events/private") [] None bad_gateway eq_refl)
    as (body & Hreq & Hbody).
  exists body. split; [exact Hreq|].
  destruct Hbody as [[H _]|[[_ H]|[_ [_ H]]]]; [discriminate H|discriminate H|].
  exact H.
Defined.


Lemma sample_event_is_event : is_event (JObj sample_event).
Proof.
  exists sample_event, (py "2025-10-06#abc123"),
    [JStr (py "moms")], [], [JStr (py "patch")].
  split; [reflexivity|]. repeat split; left; reflexivity.
Qed.


Lemma edit_patch_exact_witness :
  edit_patch sample_body sample_edit = []
  /\ save_click (fixed_env (Ok bad_gateway)) (py "private")
       (py "2025-10-06#abc123") sample_body sample_edit
     = (Ok tt, [StInfo (py "No changes.")]).
Proof.
  assert (Hp : edit_patch sample_body sample_edit = [])
    by (vm_compute; reflexivity).
  split; [exact Hp|].
  pose proof (edit_patch_exact (fixed_env (Ok bad_gateway)) (py "private")
                (py "2025-10-06#abc123") sample_body sample_edit) as H.
  destruct (enforce_mutual_exclusion (Some (post_e sample_edit))
              (Some (posting_e sample_edit)) (Some (posted_e sample_edit)))
    as [[p1 p2] p3].
  exact (proj1 (proj2 (proj2 (proj2 (proj2 (proj2 (proj2 H)))))) Hp).
Defined.

(* ================================================================== *)
(** * Further properties *)
(* ================================================================== *)

(** ** The reconciler and what is submitted *)

Lemma enforce_mutual_exclusion_facts (a b c : option (list pystr))
  (o1 o2 o3 : list pystr) :
  enforce_mutual_exclusion a b c = (o1, o2, o3) ->
  NoDup (o1 ++ o2 ++ o3)
  /\ (forall x, x ∈ o1 ++ o2 ++ o3
                <-> x ∈ or_nil a \/ x ∈ or_nil b \/ x ∈ or_nil c).
Proof.
  rewrite enforce_mutual_exclusion_sets. intros [= <- <- <-].
  set (s1 := list_to_set (or_nil a) : gset pystr).
  set (s2 := list_to_set (or_nil b) : gset pystr).
  set (s3 := list_to_set (or_nil c) : gset pystr).
  split.
  - rewrite !NoDup_app. split; [apply NoDup_sorted|]. split.
    + intros x. rewrite elem_of_app, !elem_of_sorted. set_solver.
    + split; [apply NoDup_sorted|]. split; [|apply NoDup_sorted].
      intros x. rewrite !elem_of_sorted. set_solver.
  - intros x. rewrite !elem_of_app, !elem_of_sorted.
    rewrite <- (elem_of_list_to_set (C := gset pystr) x (or_nil a)).
    rewrite <- (elem_of_list_to_set (C := gset pystr) x (or_nil b)).
    rewrite <- (elem_of_list_to_set (C := gset pystr) x (or_nil c)).
    fold s1 s2 s3.
    destruct (decide (x ∈ s1)); [set_solver|].
    destruct (decide (x ∈ s2)); set_solver.
Qed.

Lemma StronglySorted_lt_NoDup (l : list pystr) :
  StronglySorted str_lt l -> NoDup l.
Proof.
  induction 1 as [|x l Hs IH Hall]; constructor; [|exact IH].
  intros Hx. rewrite Forall_forall in Hall. specialize (Hall _ Hx).
  unfold str_lt in Hall. rewrite str_ltb_irrefl in Hall. discriminate.
Qed.

(** X1.  The triples the reconciler leaves as they are are exactly the
    canonical ones: three strictly ascending lists that share no
    element. *)
Theorem enforce_mutual_exclusion_fixed_points (a b c : list pystr) :
  enforce_mutual_exclusion (Some a) (Some b) (Some c) = (a, b, c)
  <-> StronglySorted str_lt a /\ StronglySorted str_lt b
      /\ StronglySorted str_lt c /\ NoDup (a ++ b ++ c).
Proof.
  split.
  - intros H. pose proof (enforce_mutual_exclusion_facts _ _ _ _ _ _ H) as [Hnd _].
    rewrite enforce_mutual_exclusion_sets in H. injection H as H1 H2 H3.
    split; [rewrite <- H1 at 1; apply sorted_ascending|].
    split; [rewrite <- H2 at 1; apply sorted_ascending|].
    split; [rewrite <- H3 at 1; apply sorted_ascending|]. exact Hnd.
  - intros (Ha & Hb & Hc & Hnd).
    rewrite enforce_mutual_exclusion_sets, !or_nil_Some.
    apply NoDup_app in Hnd as (_ & Hab & Hnd).
    apply NoDup_app in Hnd as (_ & Hbc & _).
    replace (list_to_set b ∖ list_to_set a) with (list_to_set b : gset pystr).
    2:{ apply set_eq. intros x. rewrite elem_of_difference, !elem_of_list_to_set.
        split; [|tauto]. intros Hx. split; [exact Hx|]. intros Hxa.
        apply (Hab x Hxa). apply elem_of_app. left. exact Hx. }
    replace (list_to_set c ∖ (list_to_set a ∪ list_to_set b))
      with (list_to_set c : gset pystr).
    2:{ apply set_eq. intros x.
        rewrite elem_of_difference, elem_of_union, !elem_of_list_to_set.
        split; [|tauto]. intros Hx. split; [exact Hx|]. intros [Hxa|Hxb].
        - apply (Hab x Hxa). apply elem_of_app. right. exact Hx.
        - apply (Hbc x Hxb Hx). }
    rewrite !sorted_list_to_set by assumption. reflexivity.
Qed.

Lemma dict_get_cons {V : Type} (k k' : pystr) (v : V) (d : list (pystr * V)) :
  dict_get k ((k', v) :: d)
  = if bool_decide (k' = k) then Some v else dict_get k d.
Proof.
  simpl. destruct (decide (k' = k)) as [Hk|Hk].
  - rewrite bool_decide_eq_true_2 by exact Hk. reflexivity.
  - rewrite bool_decide_eq_false_2 by exact Hk. reflexivity.
Qed.

Lemma dict_get_set_b {V : Type} (k k' : pystr) (v : V) (d : list (pystr * V)) :
  dict_get k' (dict_set k v d)
  = if bool_decide (k = k') then Some v else dict_get k' d.
Proof.
  rewrite dict_get_set. destruct (decide (k = k')) as [Hk|Hk].
  - rewrite bool_decide_eq_true_2 by exact Hk. reflexivity.
  - rewrite bool_decide_eq_false_2 by exact Hk. reflexivity.
Qed.

Lemma create_payload_get (f : create_form) (o1 o2 o3 : list pystr) (k : pystr) :
  enforce_mutual_exclusion (Some (post f)) (Some (posting f)) (Some (posted f))
  = (o1, o2, o3) ->
  dict_get k (create_payload f)
  = if nonempty o3 && bool_decide (py "posted" = k) then Some (jstrs o3)
    else if nonempty o2 && bool_decide (py "posting" = k) then Some (jstrs o2)
    else if nonempty o1 && bool_decide (py "post" = k) then Some (jstrs o1)
    else if nonempty (desc f) && bool_decide (py "description" = k)
         then Some (JStr (desc f))
    else if nonempty (time_ f) && bool_decide (py "time" = k)
         then Some (JStr (time_ f))
    else if bool_decide
              (match date_mode f with
               | DateOnly => py "date"
               | FullDateId => py "date_id"
               end = k)
         then Some (JStr match date_mode f with
                         | DateOnly => date f
                         | FullDateId => date_id f
                         end)
    else if bool_decide (py "access" = k) then Some (JStr (access_new f))
    else if bool_decide (py "title" = k) then Some (JStr (title f))
    else None.
Proof.
  intros Hr. unfold create_payload. rewrite Hr.
  rewrite !dict_get_set_if.
  destruct (date_mode f); rewrite dict_get_set_b, !dict_get_cons; reflexivity.
Qed.

(** X2.  Every payload that Create builds names the access scope and the
    title, and carries the date in exactly one form: [date] in date-only
    mode, [date_id] otherwise, never both.  [time] and [description] are
    present exactly when they are not empty, and the payload has no key
    outside the nine field names. *)
Theorem create_payload_fields (f : create_form) :
  let payload := create_payload f in
  dict_get (py "access") payload = Some (JStr (access_new f))
  /\ dict_get (py "title") payload = Some (JStr (title f))
  /\ match date_mode f with
     | DateOnly =>
         dict_get (py "date") payload = Some (JStr (date f))
         /\ dict_get (py "date_id") payload = None
     | FullDateId =>
         dict_get (py "date_id") payload = Some (JStr (date_id f))
         /\ dict_get (py "date") payload = None
     end
  /\ dict_get (py "time") payload
     = (if nonempty (time_ f) then Some (JStr (time_ f)) else None)
  /\ dict_get (py "description") payload
     = (if nonempty (desc f) then Some (JStr (desc f)) else None)
  /\ (forall k, dict_get k payload <> None ->
                k ∈ [py "access"; py "title"; py "date"; py "date_id";
                     py "time"; py "description";
                     py "post"; py "posting"; py "posted"]).
Proof.
  intros payload. subst payload.
  destruct (enforce_mutual_exclusion (Some (post f)) (Some (posting f))
              (Some (posted f))) as [[o1 o2] o3] eqn:Hr.
  pose proof (fun k => create_payload_get f o1 o2 o3 k Hr) as Hg.
  split; [rewrite Hg; destruct (date_mode f); eval_keys; reflexivity|].
  split; [rewrite Hg; destruct (date_mode f); eval_keys; reflexivity|].
  split; [destruct (date_mode f); split; rewrite Hg; eval_keys; reflexivity|].
  split; [rewrite Hg; destruct (date_mode f); eval_keys;
          destruct (nonempty (time_ f)); reflexivity|].
  split; [rewrite Hg; destruct (date_mode f); eval_keys;
          destruct (nonempty (desc f)); reflexivity|].
  intros k. rewrite Hg. intros H.
  assert (Hd : match date_mode f with
               | DateOnly => py "date"
               | FullDateId => py "date_id"
               end ∈ [py "date"; py "date_id"])
    by (destruct (date_mode f); set_solver).
  repeat match type of H with
    | context [bool_decide (?a = k)] =>
        destruct (decide (a = k)) as [<-|Hk];
        [set_solver|
         rewrite (bool_decide_eq_false_2 _ Hk), ?andb_false_r in H; clear Hk]
    end.
  congruence.
Qed.

Lemma listed_set_if (c : bool) (k k' : pystr) (v : json) (d : dict) :
  listed k' (set_if c k v d)
  = if c && bool_decide (k = k')
    then match v with JArr l => l | _ => [] end
    else listed k' d.
Proof.
  unfold listed. rewrite dict_get_set_if.
  destruct (c && bool_decide (k = k')); reflexivity.
Qed.

Lemma elem_of_jstr (x : pystr) (l : list pystr) :
  JStr x ∈ (JStr <$> l : list json) <-> x ∈ l.
Proof.
  rewrite list_elem_of_fmap. split.
  - intros (y & [= ->] & Hy). exact Hy.
  - intros H. exists x. split; [reflexivity|exact H].
Qed.

Lemma NoDup_jstr (l : list pystr) : NoDup l -> NoDup (JStr <$> l : list json).
Proof. apply NoDup_fmap_2. intros x y [= ->]. reflexivity. Qed.

Lemma create_payload_listed (f : create_form) (o1 o2 o3 : list pystr) :
  enforce_mutual_exclusion (Some (post f)) (Some (posting f)) (Some (posted f))
  = (o1, o2, o3) ->
  listed (py "post") (create_payload f) = JStr <$> o1
  /\ listed (py "posting") (create_payload f) = JStr <$> o2
  /\ listed (py "posted") (create_payload f) = JStr <$> o3.
Proof.
  intros Hr. unfold listed. rewrite !(create_payload_get f o1 o2 o3 _ Hr).
  destruct (date_mode f); eval_keys;
    destruct o1, o2, o3; repeat split; reflexivity.
Qed.

(** X3.  The channel lists of every create payload keep the invariant of
    the data model and lose no selection: no channel is listed twice,
    neither in one list nor in two of them, and the channels listed are
    exactly the channels selected in some category. *)
Theorem create_payload_channels (f : create_form) :
  let payload := create_payload f in
  let sent := listed (py "post") payload ++ listed (py "posting") payload
              ++ listed (py "posted") payload in
  NoDup sent
  /\ (forall v, v ∈ sent -> exists x, v = JStr x)
  /\ (forall x, JStr x ∈ sent
                <-> x ∈ post f \/ x ∈ posting f \/ x ∈ posted f)
  /\ (forall x, JStr x ∈ listed (py "post") payload <-> x ∈ post f).
Proof.
  intros payload sent. subst payload sent.
  destruct (enforce_mutual_exclusion (Some (post f)) (Some (posting f))
              (Some (posted f))) as [[o1 o2] o3] eqn:Hr.
  destruct (create_payload_listed f o1 o2 o3 Hr) as (-> & -> & ->).
  destruct (enforce_mutual_exclusion_facts _ _ _ _ _ _ Hr) as [Hnd Hin].
  rewrite !or_nil_Some in Hin. rewrite <- !fmap_app.
  split; [apply NoDup_jstr, Hnd|].
  split.
  { intros v Hv. apply list_elem_of_fmap in Hv as (x & -> & _).
    exists x. reflexivity. }
  split; [intros x; rewrite elem_of_jstr; apply Hin|].
  intros x. rewrite elem_of_jstr.
  rewrite enforce_mutual_exclusion_sets, !or_nil_Some in Hr.
  injection Hr as <- _ _. rewrite elem_of_sorted. apply elem_of_list_to_set.
Qed.

Lemma NoDup_app_select {A : Type} (a b c : list A) (x y z : bool) :
  NoDup (a ++ b ++ c) ->
  NoDup ((if x then a else []) ++ (if y then b else [])
         ++ (if z then c else [])).
Proof.
  intros H. apply NoDup_app in H as (Ha & Hab & H).
  apply NoDup_app in H as (Hb & Hbc & Hc).
  assert (Hac : forall v, v ∈ a -> v ∉ c)
    by (intros v Hv Hvc; apply (Hab v Hv), elem_of_app; right; exact Hvc).
  assert (Hab' : forall v, v ∈ a -> v ∉ b)
    by (intros v Hv Hvb; apply (Hab v Hv), elem_of_app; left; exact Hvb).
  destruct x, y, z; simpl; rewrite ?app_nil_r;
    repeat (apply NoDup_app; split; [assumption|split; [|try assumption]]);
    try assumption; try apply NoDup_nil_2;
    try (intros v Hv; rewrite ?elem_of_app; intros [?|?]; [eapply Hab'|eapply Hac];
         eassumption);
    auto.
Qed.

Lemma build_patch_listed (body : dict) (t ti : option pystr) (de : pystr)
  (p1 p2 p3 : list pystr) :
  let patch := build_patch body t ti de p1 p2 p3 in
  listed (py "post") patch
  = (if negb (strs_eq p1 (dict_get_or (py "post") (JArr []) body))
     then JStr <$> p1 else [])
  /\ listed (py "posting") patch
     = (if negb (strs_eq p2 (dict_get_or (py "posting") (JArr []) body))
        then JStr <$> p2 else [])
  /\ listed (py "posted") patch
     = (if negb (strs_eq p3 (dict_get_or (py "posted") (JArr []) body))
        then JStr <$> p3 else []).
Proof.
  intros patch. subst patch. unfold listed. rewrite !build_patch_get.
  eval_keys. repeat split;
    repeat match goal with
      | |- context [if negb ?c then _ else _] => destruct c; simpl
      end; reflexivity.
Qed.

(** X4.  The channel lists of every update patch keep the invariant of
    the data model: no channel is listed twice, neither in one list nor
    in two of them, every channel listed was selected in the form, and a
    list that is in the patch holds all that the reconciler left in its
    category. *)
Theorem edit_patch_channels (body : dict) (f : edit_form) :
  let patch := edit_patch body f in
  let sent := listed (py "post") patch ++ listed (py "posting") patch
              ++ listed (py "posted") patch in
  NoDup sent
  /\ (forall v, v ∈ sent ->
                exists x, v = JStr x
                          /\ (x ∈ post_e f \/ x ∈ posting_e f \/ x ∈ posted_e f))
  /\ (dict_get (py "post") patch <> None ->
      forall x, JStr x ∈ listed (py "post") patch <-> x ∈ post_e f).
Proof.
  intros patch sent. subst patch sent. unfold edit_patch.
  destruct (enforce_mutual_exclusion (Some (post_e f)) (Some (posting_e f))
              (Some (posted_e f))) as [[o1 o2] o3] eqn:Hr.
  destruct (build_patch_listed body (title_e f) (time_e f) (desc_e f) o1 o2 o3)
    as (H1 & H2 & H3).
  rewrite H1, H2, H3.
  destruct (enforce_mutual_exclusion_facts _ _ _ _ _ _ Hr) as [Hnd Hin].
  rewrite !or_nil_Some in Hin.
  split.
  { apply NoDup_app_select. rewrite <- !fmap_app. apply NoDup_jstr, Hnd. }
  split.
  { intros v Hv.
    assert (Hv' : v ∈ (JStr <$> o1 ++ o2 ++ o3 : list json)).
    { rewrite !fmap_app, !elem_of_app. rewrite !elem_of_app in Hv.
      repeat match type of Hv with
        | context [if ?c then _ else _] => destruct c
        end;
        repeat match goal with
          | H : _ ∈ [] |- _ => inversion H
          | H : _ \/ _ |- _ => destruct H
          end; auto. }
    apply list_elem_of_fmap in Hv' as (x & -> & Hx).
    exists x. split; [reflexivity|apply Hin, Hx]. }
  intros Hp x. rewrite build_patch_get in Hp. revert Hp. eval_keys.
  destruct (negb (strs_eq o1 (dict_get_or (py "post") (JArr []) body)));
    [intros _|intros Hp; congruence].
  rewrite elem_of_jstr.
  rewrite enforce_mutual_exclusion_sets, !or_nil_Some in Hr.
  injection Hr as <- _ _. rewrite elem_of_sorted. apply elem_of_list_to_set.
Qed.

(** ** The identifier encoder *)

Lemma quote_byte_nil (b : Z) :
  quote_byte [] b
  = if always_safe b then [b]
    else [37; hex_digit (b / 16); hex_digit (b mod 16)].
Proof.
  unfold quote_byte.
  replace (bool_decide (b ∈ [])) with false
    by (symmetry; apply bool_decide_eq_false; apply not_elem_of_nil).
  rewrite andb_false_r, orb_false_r. reflexivity.
Qed.

Lemma hex_digit_safe (d : Z) : 0 <= d < 16 -> always_safe (hex_digit d) = true.
Proof.
  intros Hd. unfold hex_digit, always_safe.
  destruct (Z.ltb_spec d 10); lia.
Qed.

Lemma enc_unfold (s : pystr) :
  enc s = match utf8_encode s with
          | Some bs => Ok (concat (quote_byte [] <$> bs))
          | None => Raise UnicodeEncodeError
          end.
Proof. reflexivity. Qed.

Lemma utf8_encode_cp_length (c : Z) (bs : list Z) :
  utf8_encode_cp c = Some bs ->
  (1 <= length bs <= 4)%nat /\ (length bs = 1%nat -> bs = [c] /\ 0 <= c < 128).
Proof.
  unfold utf8_encode_cp.
  repeat match goal with
    | |- context [if ?b then _ else _] => destruct b eqn:?
    end; intros [= <-]; simpl; (split; [lia|]); intros; try lia.
  split; [reflexivity|lia].
Qed.

Lemma quote_byte_length (b : Z) :
  (1 <= length (quote_byte [] b) <= 3)%nat
  /\ (length (quote_byte [] b) = 1%nat -> always_safe b = true).
Proof.
  rewrite quote_byte_nil. destruct (always_safe b); simpl; split; lia.
Qed.

Lemma quote_from_bytes_length (bs : list Z) :
  (length bs <= length (quote_from_bytes bs []) <= 3 * length bs)%nat.
Proof.
  unfold quote_from_bytes. induction bs as [|b bs IH]; [simpl; lia|].
  rewrite fmap_cons. simpl concat. rewrite length_app. simpl length.
  pose proof (quote_byte_length b) as [H _]. lia.
Qed.

Lemma utf8_encode_length (s : pystr) (bs : list Z) :
  utf8_encode s = Some bs -> (length s <= length bs <= 4 * length s)%nat.
Proof.
  revert bs. induction s as [|c s IH]; intros bs; simpl.
  - intros [= <-]. simpl. lia.
  - destruct (utf8_encode_cp c) as [b1|] eqn:Hc; [|discriminate].
    destruct (utf8_encode s) as [b2|]; [|discriminate].
    intros [= <-]. rewrite length_app. simpl length.
    pose proof (utf8_encode_cp_length _ _ Hc) as [H _].
    specialize (IH _ eq_refl). lia.
Qed.

Lemma enc_cons (c : Z) (s e : pystr) :
  enc (c :: s) = Ok e ->
  exists bs e', utf8_encode_cp c = Some bs /\ enc s = Ok e'
                /\ e = quote_from_bytes bs [] ++ e'.
Proof.
  rewrite !enc_unfold. simpl.
  destruct (utf8_encode_cp c) as [b1|]; [|discriminate].
  destruct (utf8_encode s) as [b2|]; [|discriminate].
  intros [= <-]. exists b1, (concat (quote_byte [] <$> b2)).
  split; [reflexivity|]. split; [reflexivity|].
  unfold quote_from_bytes. rewrite fmap_app, concat_app. reflexivity.
Qed.

(** X5.  What [enc] returns is made of unreserved characters and ["%"]
    only (so it has no ["/"], ["?"], ["#"], blank or character outside
    ASCII), and it is never shorter than its argument and at most
    twelve times as long. *)
Theorem enc_alphabet (s e : pystr) :
  enc s = Ok e ->
  Forall (fun c => always_safe c = true \/ c = 37) e
  /\ (length s <= length e <= 12 * length s)%nat.
Proof.
  rewrite enc_unfold. destruct (utf8_encode s) as [bs|] eqn:Hs; [|discriminate].
  intros [= <-]. split.
  - apply utf8_encode_spec in Hs as [Hbs _].
    induction Hbs as [|b bs Hb _ IH]; [constructor|].
    rewrite fmap_cons. simpl concat. apply Forall_app. split; [|exact IH].
    rewrite quote_byte_nil. unfold is_byte in Hb.
    destruct (always_safe b) eqn:Hsafe.
    + constructor; [left; exact Hsafe|constructor].
    + constructor; [right; reflexivity|].
      constructor; [left; apply hex_digit_safe; euclid|].
      constructor; [left; apply hex_digit_safe; euclid|constructor].
  - pose proof (utf8_encode_length _ _ Hs).
    pose proof (quote_from_bytes_length bs) as Hq.
    unfold quote_from_bytes in Hq. lia.
Qed.

(** X6.  [enc] works character by character: the encoding of a
    concatenation is the concatenation of the encodings. *)
Theorem enc_app (s1 s2 e1 e2 : pystr) :
  enc s1 = Ok e1 -> enc s2 = Ok e2 -> enc (s1 ++ s2) = Ok (e1 ++ e2).
Proof.
  revert e1. induction s1 as [|c s1 IH]; intros e1.
  - intros [= <-] H2. exact H2.
  - intros H1 H2. destruct (enc_cons _ _ _ H1) as (bs & e' & Hc & He' & ->).
    specialize (IH _ He' H2). rewrite enc_unfold in IH |- *. simpl.
    rewrite Hc. destruct (utf8_encode (s1 ++ s2)) as [b2|]; [|discriminate].
    injection IH as IH. f_equal. rewrite fmap_app, concat_app, IH.
    unfold quote_from_bytes. rewrite app_assoc. reflexivity.
Qed.


Lemma app_slash_inj (a1 a2 e1 e2 : pystr) :
  47 ∉ a1 -> 47 ∉ a2 -> a1 ++ 47 :: e1 = a2 ++ 47 :: e2 ->
  a1 = a2 /\ e1 = e2.
Proof.
  revert a2. induction a1 as [|x a1 IH]; intros [|y a2] H1 H2; simpl.
  - intros [= ->]. split; reflexivity.
  - intros [= <- _]. exfalso. apply H2. left.
  - intros [= -> _]. exfalso. apply H1. left.
  - intros [= -> H]. apply not_elem_of_cons in H1 as [_ H1].
    apply not_elem_of_cons in H2 as [_ H2].
    destruct (IH a2 H1 H2 H) as [-> ->]. split; reflexivity.
Qed.

(** X8.  The request path identifies the event: two events whose access
    scopes hold no ["/"] get the same path only if they have the same
    scope and the same [date_id]. *)
Theorem event_path_injective (a1 a2 id1 id2 p : pystr) :
  47 ∉ a1 -> 47 ∉ a2 ->
  event_path a1 id1 = Ok p -> event_path a2 id2 = Ok p ->
  a1 = a2 /\ id1 = id2.
Proof.
  intros Ha1 Ha2. unfold event_path, mbind, res_bind, mret, res_ret.
  destruct (enc id1) as [e1|] eqn:H1; [|discriminate].
  destruct (enc id2) as [e2|] eqn:H2; [|discriminate].
  intros Hp1 Hp2.
  assert (H : py "/events/" ++ a1 ++ py "/" ++ e1
              = py "/events/" ++ a2 ++ py "/" ++ e2) by congruence.
  apply app_inv_head in H. change (py "/") with [47] in H.
  destruct (app_slash_inj _ _ _ _ Ha1 Ha2 H) as [-> ->].
  split; [reflexivity|]. eapply enc_injective; eassumption.
Qed.

(** ** Requests *)

Lemma dict_get_update {V : Type} (d extra : list (pystr * V)) (k : pystr) :
  NoDup (fst <$> extra) ->
  dict_get k (dict_update d extra)
  = match dict_get k extra with
    | Some v => Some v
    | None => dict_get k d
    end.
Proof.
  unfold dict_update. revert d.
  induction extra as [|[k0 v0] extra IH]; intros d Hnd; [reflexivity|].
  rewrite fmap_cons in Hnd. apply NoDup_cons in Hnd as [Hk0 Hnd].
  simpl fold_left. rewrite (IH _ Hnd). simpl dict_get.
  destruct (decide (k0 = k)) as [->|Hne].
  - assert (Hnone : dict_get k extra = None).
    { clear -Hk0. induction extra as [|[k1 v1] extra IH]; [reflexivity|].
      simpl. rewrite fmap_cons in Hk0. apply not_elem_of_cons in Hk0 as [Hk1 Hk0].
      simpl in Hk1. rewrite decide_False by congruence. apply IH, Hk0. }
    rewrite Hnone. apply dict_get_set_eq.
  - destruct (dict_get k extra); [reflexivity|].
    apply dict_get_set_ne, Hne.
Qed.

Lemma req_body_of (E : env) (method path : pystr) (kw : list (pystr * pystr))
  (data : option json) (resp : response) :
  http E {| rq_method := method; rq_url := API_BASE E ++ path;
            rq_headers := dict_update (HEADERS E) kw; rq_data := data |}
  = Ok resp ->
  req E method path kw data
  = (Ok (status_code resp, body_of resp, headers resp),
     [HttpCall {| rq_method := method; rq_url := API_BASE E ++ path;
                  rq_headers := dict_update (HEADERS E) kw;
                  rq_data := data |}]).
Proof. intros H. apply (req_ok E method path kw data resp H). Qed.

Lemma req_raise (E : env) (method path : pystr) (kw : list (pystr * pystr))
  (data : option json) (e : exn) :
  http E {| rq_method := method; rq_url := API_BASE E ++ path;
            rq_headers := dict_update (HEADERS E) kw; rq_data := data |}
  = Raise e ->
  req E method path kw data
  = (Raise e,
     [HttpCall {| rq_method := method; rq_url := API_BASE E ++ path;
                  rq_headers := dict_update (HEADERS E) kw;
                  rq_data := data |}]).
Proof.
  intros H. unfold req, lift, emit, mbind, M_bind, mret, M_ret.
  rewrite H. reflexivity.
Qed.

(** X9.  Whatever the transport answers or raises, [req] sends exactly
    one request: the given method and body to the base URL followed by
    the path.  Its headers are the per-call headers where the call gives
    one and the two standing headers elsewhere, so the API key goes with
    every request that does not override it. *)
Theorem req_sends_one_request (E : env) (method path : pystr)
  (kw : list (pystr * pystr)) (data : option json) :
  NoDup (fst <$> kw) ->
  exists rq,
    http_calls (snd (req E method path kw data)) = [rq]
    /\ rq_method rq = method /\ rq_url rq = API_BASE E ++ path
    /\ rq_data rq = data
    /\ (forall k, dict_get k (rq_headers rq)
                  = match dict_get k kw with
                    | Some v => Some v
                    | None => dict_get k (HEADERS E)
                    end)
    /\ (dict_get (py "x-api-key") kw = None ->
        dict_get (py "x-api-key") (rq_headers rq) = Some (API_KEY E)).
Proof.
  intros Hnd. eexists. split.
  { match goal with
    | |- context [req E ?m ?p ?k ?d] =>
        destruct (http E {| rq_method := m; rq_url := API_BASE E ++ p;
                            rq_headers := dict_update (HEADERS E) k;
                            rq_data := d |}) as [resp|e] eqn:Hr
    end.
    - rewrite (req_body_of _ _ _ _ _ _ Hr). reflexivity.
    - rewrite (req_raise _ _ _ _ _ _ Hr). reflexivity. }
  cbn [rq_method rq_url rq_data rq_headers].
  split; [reflexivity|]. split; [reflexivity|]. split; [reflexivity|].
  split; [intros k; apply dict_get_update, Hnd|].
  intros Hk. rewrite (dict_get_update _ _ _ Hnd), Hk. reflexivity.
Qed.

Lemma req_calls (E : env) (method path : pystr) (data : option json) :
  http_calls (snd (req E method path [] data))
  = [event_request E method path data].
Proof.
  destruct (http E (event_request E method path data)) as [resp|e] eqn:Hr.
  - rewrite (req_body_of E method path [] data resp Hr). reflexivity.
  - rewrite (req_raise E method path [] data e Hr). reflexivity.
Qed.

Lemma bind_lift_calls {A B : Type} (m : M A) (f : A -> res B) :
  http_calls (snd (a ← m; lift (f a))) = http_calls (snd m).
Proof.
  unfold mbind, M_bind, lift. destruct m as [[a|e] log]; simpl; [|reflexivity].
  rewrite app_nil_r. reflexivity.
Qed.

Lemma list_events_as_res (E : env) (access : pystr) :
  list_events E access
  = (r ← req E (py "GET") (py "/events/" ++ access) [] None;
     lift (let '(sc, body, _) := r in
           if sc =? 200 then
             d ← as_dict body;
             let items := dict_get_or (py "items") (JArr []) d in
             its ← py_iter items;
             its' ← mapM_res (augment E) its;
             mret (match items with JArr _ => JArr its' | _ => items end)
           else Raise (RuntimeError
                         (py "List failed: " ++ fmt_int sc ++ py " "
                          ++ fmt E body)))).
Proof.
  unfold list_events, mbind, M_bind, lift, raise, mret, M_ret.
  destruct (req E (py "GET") (py "/events/" ++ access) [] None)
    as [[[[sc body] h]|e] log]; [|reflexivity].
  destruct (sc =? 200); [|reflexivity].
  destruct (as_dict body) as [d|e]; simpl; [|reflexivity].
  destruct (py_iter (dict_get_or (py "items") (JArr []) d)) as [its|e]; simpl;
    [|reflexivity].
  destruct (mapM_res (augment E) its); simpl; rewrite ?app_nil_r; reflexivity.
Qed.

(** X10.  No operation of the client repeats a request: listing and
    creating send exactly one request whatever the answer, and fetching,
    updating and deleting an event whose path could be built send
    exactly one, with their own method, to that path. *)
Theorem client_one_request (E : env) (access date_id p : pystr)
  (payload patch : dict) :
  event_path access date_id = Ok p ->
  http_calls (snd (list_events E access)) = [list_request E access]
  /\ http_calls (snd (create_event E payload)) = [post_request E payload]
  /\ http_calls (snd (get_event E access date_id))
     = [event_request E (py "GET") p None]
  /\ http_calls (snd (update_event E access date_id patch))
     = [put_request E p patch]
  /\ http_calls (snd (delete_event E access date_id))
     = [event_request E (py "DELETE") p None].
Proof.
  intros Hp.
  split; [rewrite list_events_as_res, bind_lift_calls; apply req_calls|].
  split; [apply req_calls|].
  unfold get_event, update_event, delete_event. rewrite Hp.
  unfold lift, mbind, M_bind.
  repeat split;
    match goal with
    | |- context [req E ?m ?q [] ?d] =>
        pose proof (req_calls E m q d) as Hc;
        destruct (req E m q [] d) as [r log]; destruct r; exact Hc
    end.
Qed.

(** X11.  An identifier that cannot be encoded stops every operation on
    the event before anything is sent: with a surrogate code point in
    [date_id], fetching, updating and deleting raise
    [UnicodeEncodeError] and send no request, and so do the Save button
    (when there is something to save) and the Delete button, which show
    nothing. *)
Theorem event_ops_unencodable (E : env) (access date_id : pystr)
  (patch body : dict) (f : edit_form) :
  is_str date_id -> Exists (fun c => is_surrogate c = true) date_id ->
  get_event E access date_id = (Raise UnicodeEncodeError, [])
  /\ update_event E access date_id patch = (Raise UnicodeEncodeError, [])
  /\ delete_event E access date_id = (Raise UnicodeEncodeError, [])
  /\ delete_click E access date_id = (Raise UnicodeEncodeError, [])
  /\ (edit_patch body f <> [] ->
      save_click E access date_id body f = (Raise UnicodeEncodeError, [])).
Proof.
  intros Hv Hs. apply (enc_raises _ Hv) in Hs.
  assert (Hp : event_path access date_id = Raise UnicodeEncodeError)
    by (unfold event_path; rewrite Hs; reflexivity).
  unfold delete_click, save_click, get_event, update_event, delete_event.
  rewrite Hp. repeat (split; [reflexivity|]).
  intros Hne. destruct (edit_patch body f); [congruence|reflexivity].
Qed.

(** ** Listing: answers that hold no usable records *)

Lemma list_events_200 (E : env) (access : pystr) (resp : response) :
  http E (list_request E access) = Ok resp ->
  status_code resp = 200 ->
  list_events E access
  = (d ← as_dict (body_of resp);
     its ← py_iter (dict_get_or (py "items") (JArr []) d);
     its' ← mapM_res (augment E) its;
     mret (match dict_get_or (py "items") (JArr []) d with
           | JArr _ => JArr its'
           | _ => dict_get_or (py "items") (JArr []) d
           end),
     [HttpCall (list_request E access)]).
Proof.
  intros Hr Hsc. rewrite list_events_as_res.
  rewrite (req_body_of E (py "GET") (py "/events/" ++ access) [] None resp Hr).
  unfold mbind at 1. unfold M_bind, lift. rewrite Hsc. reflexivity.
Qed.

Lemma list_section_of (E : env) (access : pystr) (r : res json)
  (log : list event) :
  list_events E access = (r, log) ->
  list_section E access
  = (items ← match r with
             | Ok v => (Ok v, log)
             | Raise RerunException => (Raise RerunException, log)
             | Raise e => (Ok (JArr []), log ++ [StError (exn_str E e)])
             end;
     show_table items ;;
     opts ← lift (edit_options items);
     mret (items, opts)).
Proof.
  intros H. unfold list_section. rewrite H. unfold try_except.
  destruct r as [v|e]; [reflexivity|]. destruct e; reflexivity.
Qed.

(** X12.  A 200 answer whose JSON object has no [items], or an empty one,
    lists as no events: [list_events] returns the empty list, and the
    page shows the note that there are none, no table and no error. *)
Theorem list_events_no_records (E : env) (access : pystr) (resp : response)
  (b : dict) :
  http E (list_request E access) = Ok resp ->
  status_code resp = 200 ->
  body_of resp = JObj b ->
  dict_get (py "items") b = None \/ dict_get (py "items") b = Some (JArr []) ->
  list_events E access = (Ok (JArr []), [HttpCall (list_request E access)])
  /\ list_section E access
     = (Ok (JArr [], []),
        [HttpCall (list_request E access);
         StInfo (py "No events for this access yet.")]).
Proof.
  intros Hr Hsc Hb Hi.
  assert (Hl : list_events E access
               = (Ok (JArr []), [HttpCall (list_request E access)])).
  { rewrite (list_events_200 E access resp Hr Hsc), Hb.
    cbn [as_dict mbind res_bind]. unfold dict_get_or.
    destruct Hi as [-> | ->]; reflexivity. }
  split; [exact Hl|]. rewrite (list_section_of _ _ _ _ Hl). reflexivity.
Qed.

(** X13.  A 200 answer whose body is not JSON is not reported: [req] wraps
    the text as [{"raw": text}], which has no [items], so [list_events]
    returns the empty list and the page shows the note that there are no
    events. *)
Theorem list_events_unparseable_200 (E : env) (access : pystr)
  (resp : response) :
  http E (list_request E access) = Ok resp ->
  status_code resp = 200 ->
  content resp <> [] ->
  resp_json resp = None ->
  list_events E access = (Ok (JArr []), [HttpCall (list_request E access)])
  /\ list_section E access
     = (Ok (JArr [], []),
        [HttpCall (list_request E access);
         StInfo (py "No events for this access yet.")]).
Proof.
  intros Hr Hsc Hc Hj.
  assert (Hb : body_of resp = JObj [(py "raw", JStr (text resp))]).
  { unfold body_of. rewrite Hj. destruct (content resp); congruence. }
  assert (Hl : list_events E access
               = (Ok (JArr []), [HttpCall (list_request E access)])).
  { rewrite (list_events_200 E access resp Hr Hsc), Hb. reflexivity. }
  split; [exact Hl|]. rewrite (list_section_of _ _ _ _ Hl). reflexivity.
Qed.

(** X14.  A 200 answer whose body is not a JSON object (an empty body,
    [null], a list, a number, a string) makes [list_events] raise
    [AttributeError]; the page reports that error and shows no rows. *)
Theorem list_events_not_object_200 (E : env) (access : pystr)
  (resp : response) :
  http E (list_request E access) = Ok resp ->
  status_code resp = 200 ->
  (forall d, body_of resp <> JObj d) ->
  list_events E access
  = (Raise AttributeError, [HttpCall (list_request E access)])
  /\ list_section E access
     = (Ok (JArr [], []),
        [HttpCall (list_request E access); StError (exn_text E AttributeError);
         StInfo (py "No events for this access yet.")]).
Proof.
  intros Hr Hsc Hb.
  assert (Hl : list_events E access
               = (Raise AttributeError, [HttpCall (list_request E access)])).
  { rewrite (list_events_200 E access resp Hr Hsc).
    destruct (body_of resp) as [| | | | | |d]; try reflexivity.
    destruct (Hb d eq_refl). }
  split; [exact Hl|]. rewrite (list_section_of _ _ _ _ Hl). reflexivity.
Qed.

(** X15.  A failure of the transport (no connection, a timeout) reaches
    [list_events] as the exception it is, after the one request was
    tried; the page reports it and shows no rows instead of stopping. *)
Theorem list_section_transport_error (E : env) (access : pystr) (e : exn) :
  http E (list_request E access) = Raise e ->
  e <> RerunException ->
  list_events E access = (Raise e, [HttpCall (list_request E access)])
  /\ list_section E access
     = (Ok (JArr [], []),
        [HttpCall (list_request E access); StError (exn_str E e);
         StInfo (py "No events for this access yet.")]).
Proof.
  intros Hr He.
  assert (Hl : list_events E access
               = (Raise e, [HttpCall (list_request E access)])).
  { rewrite list_events_as_res.
    rewrite (req_raise E (py "GET") (py "/events/" ++ access) [] None e Hr).
    reflexivity. }
  split; [exact Hl|]. rewrite (list_section_of _ _ _ _ Hl).
  destruct e; try reflexivity. congruence.
Qed.

(** ** Listing: which records get through *)

Lemma py_iter_ok (v : json) : (exists l, py_iter v = Ok l) <-> iterable v.
Proof.
  destruct v; simpl; split; intros H; try tauto; try (eexists; reflexivity);
    destruct H as [l H]; discriminate.
Qed.

Lemma py_iter_raise (v : json) (e : exn) : py_iter v = Raise e -> e = TypeError.
Proof. destruct v; simpl; intros [=]; congruence. Qed.

Lemma iterable_field (k : pystr) (d : dict) :
  iterable (dict_get_or k (JArr []) d)
  <-> dict_get k d = None \/ exists v, dict_get k d = Some v /\ iterable v.
Proof.
  unfold dict_get_or. destruct (dict_get k d) as [v|]; simpl.
  - split; [intros H; right; exists v; auto|].
    intros [[=]|(w & [= <-] & H)]. exact H.
  - split; auto.
Qed.

Lemma channel_pairs_ok (E : env) (d : dict) (ks : list pystr) :
  (exists l, channel_pairs E d ks = Ok l)
  <-> Forall (fun k => iterable (dict_get_or k (JArr []) d)) ks.
Proof.
  induction ks as [|k ks IH]; simpl.
  - split; [constructor|eexists; reflexivity].
  - unfold mbind, res_bind. split.
    + intros [l H].
      destruct (py_iter (dict_get_or k (JArr []) d)) as [vs|] eqn:Hk;
        [|discriminate].
      destruct (channel_pairs E d ks) as [rest|]; [|discriminate].
      constructor; [apply py_iter_ok; eauto|apply IH; eauto].
    + intros H. apply Forall_cons in H as [Hk Hks].
      apply py_iter_ok in Hk as [vs ->]. apply IH in Hks as [rest ->].
      eexists; reflexivity.
Qed.

Lemma channel_pairs_raise (E : env) (d : dict) (ks : list pystr) (e : exn) :
  channel_pairs E d ks = Raise e -> e = TypeError.
Proof.
  induction ks as [|k ks IH]; simpl; [discriminate|].
  unfold mbind, res_bind.
  destruct (py_iter (dict_get_or k (JArr []) d)) as [vs|e'] eqn:Hk.
  - destruct (channel_pairs E d ks) as [rest|e'']; [discriminate|].
    intros [= <-]. apply IH. reflexivity.
  - intros [= <-]. eapply py_iter_raise, Hk.
Qed.

Lemma channel_fields_date (d : dict) (v : json) :
  Forall (fun k => iterable (dict_get_or k (JArr [])
                               (dict_set (py "date") v d)))
    [py "post"; py "posting"; py "posted"]
  <-> Forall (fun k => dict_get k d = None
                       \/ exists w, dict_get k d = Some w /\ iterable w)
        [py "post"; py "posting"; py "posted"].
Proof.
  rewrite !Forall_cons, !Forall_nil. unfold dict_get_or at 1 2 3.
  rewrite !dict_get_set_ne by (vm_compute; discriminate).
  fold (dict_get_or (py "post") (JArr []) d).
  fold (dict_get_or (py "posting") (JArr []) d).
  fold (dict_get_or (py "posted") (JArr []) d).
  rewrite !iterable_field. reflexivity.
Qed.

Lemma augment_ok_raise (E : env) (it : json) :
  ((exists it', augment E it = Ok it') <-> augmentable it)
  /\ (forall e, augment E it = Raise e -> e = AttributeError \/ e = TypeError).
Proof.
  unfold augment, augmentable, mbind, res_bind, mret, res_ret.
  destruct it as [| | | | | |d]; simpl as_dict;
    try (split; [split; [intros [? [=]]|intros (d & [=] & _)]
                |intros e He; inversion He; left; reflexivity]).
  destruct (dict_get (py "date_id") d) as [v|] eqn:Hid.
  - assert (Hg : dict_get_or (py "date_id") (JStr []) d = v)
      by (unfold dict_get_or; rewrite Hid; reflexivity).
    rewrite !Hg. clear Hg.
    destruct v as [| | | |s| |]; simpl as_str;
      try (split; [split; [intros [? [=]]
                          |intros (d' & [= <-] & Hd & _); rewrite Hid in Hd;
                           destruct Hd as [[=]|[s [=]]]]
                  |intros e He; inversion He; left; reflexivity]).
    split.
    + split.
      * intros [it' H]. exists d. split; [reflexivity|].
        split; [right; exists s; exact Hid|]. eapply (proj1 (channel_fields_date d _)).
        apply (channel_pairs_ok E).
        match type of H with
        | context [channel_pairs E ?d' ?ks] =>
            destruct (channel_pairs E d' ks) as [l|] eqn:Hc;
              [exists l; exact Hc|discriminate]
        end.
      * intros (d' & [= <-] & _ & Hks).
        apply (proj2 (channel_fields_date d (JStr (hd [] (split 35 s))))) in Hks.
        apply (channel_pairs_ok E) in Hks as [l ->]. eexists; reflexivity.
    + intros e.
      match goal with
      | |- context [channel_pairs E ?d' ?ks] =>
          destruct (channel_pairs E d' ks) as [l|e'] eqn:Hc; [discriminate|]
      end.
      intros He. inversion He; subst. right. eapply channel_pairs_raise, Hc.
  - assert (Hg : dict_get_or (py "date_id") (JStr []) d = JStr [])
      by (unfold dict_get_or; rewrite Hid; reflexivity).
    rewrite !Hg. clear Hg. simpl as_str. split.
    + split.
      * intros [it' H]. exists d. split; [reflexivity|].
        split; [left; exact Hid|]. eapply (proj1 (channel_fields_date d _)).
        apply (channel_pairs_ok E).
        match type of H with
        | context [channel_pairs E ?d' ?ks] =>
            destruct (channel_pairs E d' ks) as [l|] eqn:Hc;
              [exists l; exact Hc|discriminate]
        end.
      * intros (d' & [= <-] & _ & Hks).
        apply (proj2 (channel_fields_date d (JStr (hd [] (split 35 []))))) in Hks.
        apply (channel_pairs_ok E) in Hks as [l ->]. eexists; reflexivity.
    + intros e.
      match goal with
      | |- context [channel_pairs E ?d' ?ks] =>
          destruct (channel_pairs E d' ks) as [l|e'] eqn:Hc; [discriminate|]
      end.
      intros He. inversion He; subst. right. eapply channel_pairs_raise, Hc.
Qed.

(** X16.  The loop of [list_events] gets through a record exactly when it
    is a JSON object whose [date_id], if present, is a string and whose
    post, posting and posted fields, if present, can be iterated (a
    list, a string or an object); on any other record it raises
    [AttributeError] or [TypeError]. *)
Theorem augment_succeeds_iff (E : env) (it : json) :
  ((exists it', augment E it = Ok it') <-> augmentable it)
  /\ (forall e, augment E it = Raise e -> e = AttributeError \/ e = TypeError).
Proof. apply augment_ok_raise. Qed.

Lemma mapM_res_ok {A B : Type} (f : A -> res B) (l : list A) (l' : list B) :
  mapM_res f l = Ok l' <-> Forall2 (fun a b => f a = Ok b) l l'.
Proof.
  revert l'. induction l as [|a l IH]; intros l'; simpl.
  - split; [intros [= <-]; constructor|intros H; inversion H; reflexivity].
  - unfold mbind, res_bind, mret, res_ret. split.
    + destruct (f a) as [b|] eqn:Hb; [|discriminate].
      destruct (mapM_res f l) as [bs|]; [|discriminate].
      intros [= <-]. constructor; [exact Hb|]. apply IH. reflexivity.
    + intros H. inversion H as [|a0 b l0 bs Hb Hbs]; subst.
      rewrite Hb. apply IH in Hbs. rewrite Hbs. reflexivity.
Qed.

Lemma mapM_res_raise {A B : Type} (f : A -> res B) (l : list A) (e : exn) :
  mapM_res f l = Raise e -> Exists (fun a => f a = Raise e) l.
Proof.
  induction l as [|a l IH]; simpl; [discriminate|].
  unfold mbind, res_bind, mret, res_ret.
  destruct (f a) as [b|e'] eqn:Hb.
  - destruct (mapM_res f l) as [bs|e'']; [discriminate|].
    intros [= <-]. right. apply IH. reflexivity.
  - intros [= <-]. left. exact Hb.
Qed.

Lemma mapM_res_total {A B : Type} (f : A -> res B) (l : list A) :
  Forall (fun a => exists b, f a = Ok b) l -> exists l', mapM_res f l = Ok l'.
Proof.
  intros H.
  destruct (mapM_res_Forall2 f (fun _ _ => True) l) as (l' & Hl & _).
  - eapply Forall_impl; [exact H|]. intros a [b Hb]. exists b. auto.
  - exists l'. exact Hl.
Qed.

(** X17.  Listing is all or nothing.  For a 200 answer whose [items] is a
    list, [list_events] returns exactly when every record gets through
    the loop; it then returns one record for each fetched record, in the
    same order, and otherwise raises [AttributeError] or [TypeError] and
    returns none of them. *)
Theorem list_events_all_or_nothing (E : env) (access : pystr)
  (resp : response) (b : dict) (its : list json) :
  http E (list_request E access) = Ok resp ->
  status_code resp = 200 ->
  body_of resp = JObj b ->
  dict_get (py "items") b = Some (JArr its) ->
  ((exists v, fst (list_events E access) = Ok v) <-> Forall augmentable its)
  /\ (forall v, fst (list_events E access) = Ok v ->
                exists its', v = JArr its'
                             /\ Forall2 (fun it it' => augment E it = Ok it')
                                  its its')
  /\ (forall e, fst (list_events E access) = Raise e ->
                e = AttributeError \/ e = TypeError).
Proof.
  intros Hr Hsc Hb Hi.
  assert (Hl : fst (list_events E access)
               = match mapM_res (augment E) its with
                 | Ok its' => Ok (JArr its')
                 | Raise e => Raise e
                 end).
  { rewrite (list_events_200 E access resp Hr Hsc), Hb.
    cbn [as_dict mbind res_bind fst]. unfold dict_get_or. rewrite Hi.
    reflexivity. }
  rewrite Hl. clear Hl.
  destruct (mapM_res (augment E) its) as [its'|e] eqn:Hm.
  - split; [|split].
    + split; [intros _|intros _; eexists; reflexivity].
      apply mapM_res_ok in Hm. clear -Hm.
      induction Hm as [|it it' its its' H _ IH]; constructor; [|exact IH].
      apply (augment_ok_raise E it). exists it'. exact H.
    + intros v [= <-]. exists its'. split; [reflexivity|].
      apply mapM_res_ok, Hm.
    + intros e [=].
  - split; [|split].
    + split; [intros [v [=]]|]. intros Hall.
      destruct (mapM_res_total (augment E) its) as [l' Hl'].
      * eapply Forall_impl; [exact Hall|]. intros it. apply augment_ok_raise.
      * congruence.
    + intros v [=].
    + intros e' He'. inversion He'; subst.
      apply mapM_res_raise in Hm. apply Exists_exists in Hm as (it & _ & Hit).
      eapply (proj2 (augment_ok_raise E it)), Hit.
Qed.

(** ** The table and the edit selector *)

Lemma df_inner_nonempty (d : dict) (acc : list pystr) :
  acc <> [] \/ d <> [] ->
  fold_left (fun acc kv =>
               if bool_decide (fst kv ∈ acc) then acc else acc ++ [fst kv])
    d acc <> [].
Proof.
  revert acc. induction d as [|kv d IH]; intros acc [H|H]; simpl;
    try congruence.
  - apply IH. left. destruct (bool_decide (fst kv ∈ acc)); [exact H|].
    destruct acc; discriminate.
  - apply IH. left. destruct (bool_decide (fst kv ∈ acc)) eqn:Hb.
    + apply bool_decide_eq_true in Hb. intros ->. inversion Hb.
    + destruct acc; discriminate.
Qed.

Lemma df_outer_nonempty (rows : list json) (acc : list pystr) :
  acc <> [] ->
  fold_left
    (fun acc r =>
       match r with
       | JObj d =>
           fold_left
             (fun acc kv =>
                if bool_decide (fst kv ∈ acc) then acc else acc ++ [fst kv])
             d acc
       | _ => acc
       end)
    rows acc <> [].
Proof.
  revert acc. induction rows as [|r rows IH]; intros acc H; simpl; [exact H|].
  apply IH. destruct r; try exact H. apply df_inner_nonempty. left. exact H.
Qed.

Lemma df_columns_nonempty (d : dict) (rows : list json) :
  d <> [] -> df_columns (JObj d :: rows) <> [].
Proof.
  intros H. unfold df_columns. simpl fold_left.
  apply df_outer_nonempty, df_inner_nonempty. right. exact H.
Qed.

Lemma show_table_rows (d : dict) (rows : list json) :
  d <> [] ->
  exists cols, show_table (JArr (JObj d :: rows))
               = (Ok tt, [StDataframe cols (JObj d :: rows)]).
Proof.
  intros H. pose proof (df_columns_nonempty d rows H) as Hc.
  unfold show_table. destruct (df_columns (JObj d :: rows)); [congruence|].
  eexists. reflexivity.
Qed.

Lemma augmented_date_id (E : env) (it it' : json) :
  augmented E it it' ->
  exists d d', it = JObj d /\ it' = JObj d' /\ d' <> []
               /\ dict_get (py "date_id") d' = dict_get (py "date_id") d.
Proof.
  intros [d id p1 p2 p3 _ _ _ _]. eexists d, _.
  split; [reflexivity|]. split; [reflexivity|].
  split; [apply dict_set_nonempty|].
  rewrite !dict_get_set_ne by (vm_compute; discriminate). reflexivity.
Qed.

Lemma list_events_events (E : env) (access : pystr) (resp : response)
  (b : dict) (its : list json) :
  http E (list_request E access) = Ok resp ->
  status_code resp = 200 ->
  body_of resp = JObj b ->
  dict_get (py "items") b = Some (JArr its) ->
  Forall is_event its ->
  exists its',
    list_events E access = (Ok (JArr its'), [HttpCall (list_request E access)])
    /\ Forall2 (augmented E) its its'.
Proof.
  intros Hr Hsc Hb Hi Hev.
  destruct (mapM_res_Forall2 (augment E) (augmented E) its) as (its' & Hm & HR).
  { eapply Forall_impl; [exact Hev|]. intros it. apply augment_event. }
  exists its'. split; [|exact HR].
  rewrite (list_events_200 E access resp Hr Hsc), Hb.
  cbn [as_dict mbind res_bind]. unfold dict_get_or. rewrite Hi.
  match goal with
  | |- (?r, _) = _ =>
      replace r with (match mapM_res (augment E) its with
                      | Ok l => Ok (JArr l)
                      | Raise e => Raise e
                      end) by reflexivity
  end.
  rewrite Hm. reflexivity.
Qed.

Lemma edit_options_rows (its' : list json) :
  its' <> [] -> edit_options (JArr its') = mapM_res option_of its'.
Proof. destruct its'; [congruence|reflexivity]. Qed.

Lemma list_section_rows (E : env) (access : pystr) (d : dict)
  (rows : list json) (log : list event) :
  d <> [] ->
  list_events E access = (Ok (JArr (JObj d :: rows)), log) ->
  exists cols,
    list_section E access
    = (match mapM_res option_of (JObj d :: rows) with
       | Ok opts => Ok (JArr (JObj d :: rows), opts)
       | Raise e => Raise e
       end,
       log ++ [StDataframe cols (JObj d :: rows)]).
Proof.
  intros Hd Hl. destruct (show_table_rows d rows Hd) as [cols Hs].
  exists cols. rewrite (list_section_of _ _ _ _ Hl).
  unfold mbind at 1. unfold M_bind. unfold mbind at 1. unfold M_bind.
  rewrite Hs. rewrite edit_options_rows by discriminate.
  unfold lift, mbind, M_bind, mret, M_ret.
  destruct (mapM_res option_of (JObj d :: rows)); rewrite ?app_nil_r;
    reflexivity.
Qed.

(** X18.  When the listed records all carry a [date_id], the page shows
    them in a table and offers exactly their [date_id] values, in the
    listed order, for editing. *)
Theorem list_section_options (E : env) (access : pystr) (resp : response)
  (b : dict) (its ids : list json) :
  http E (list_request E access) = Ok resp ->
  status_code resp = 200 ->
  body_of resp = JObj b ->
  dict_get (py "items") b = Some (JArr its) ->
  its <> [] ->
  Forall is_event its ->
  Forall2 (field_is (py "date_id")) its ids ->
  exists its' cols,
    Forall2 (augmented E) its its'
    /\ list_section E access
       = (Ok (JArr its', ids),
          [HttpCall (list_request E access); StDataframe cols its']).
Proof.
  intros Hr Hsc Hb Hi Hne Hev Hids.
  destruct (list_events_events E access resp b its Hr Hsc Hb Hi Hev)
    as (its' & Hl & HR).
  exists its'.
  assert (Hopts : mapM_res option_of its' = Ok ids).
  { apply mapM_res_ok. clear -HR Hids. revert ids Hids.
    induction HR as [|it it' its its' H _ IH]; intros ids Hids;
      inversion Hids as [|? id ? ids' Hid Hids']; subst; constructor.
    - destruct (augmented_date_id E it it' H) as (d & d' & -> & -> & _ & Hg).
      destruct Hid as (d0 & [= <-] & Hid). simpl. rewrite Hg, Hid. reflexivity.
    - apply IH, Hids'. }
  destruct HR as [|it it' its0 its0' H HR]; [congruence|].
  destruct (augmented_date_id E it it' H) as (d & d' & -> & -> & Hd' & _).
  destruct (list_section_rows E access d' its0' _ Hd' Hl) as [cols Hs].
  exists cols. split; [constructor; assumption|].
  rewrite Hs, Hopts. reflexivity.
Qed.

Lemma mapM_res_key_error (l : list json) :
  Forall (fun it => exists d, it = JObj d) l ->
  Exists (field_missing (py "date_id")) l ->
  mapM_res option_of l = Raise KeyError.
Proof.
  intros Hall Hex. induction Hex as [it l Hit|it l Hex IH].
  - destruct Hit as (d & -> & Hd). simpl. rewrite Hd. reflexivity.
  - apply Forall_cons in Hall as [[d ->] Hall]. simpl.
    destruct (dict_get (py "date_id") d); [|reflexivity].
    unfold mbind, res_bind. rewrite (IH Hall). reflexivity.
Qed.

(** X19.  A listed record without a [date_id] is shown in the table (its
    date is empty) but stops the page right after: building the edit
    selector raises [KeyError], which nothing catches. *)
Theorem list_section_missing_date_id (E : env) (access : pystr)
  (resp : response) (b : dict) (its : list json) :
  http E (list_request E access) = Ok resp ->
  status_code resp = 200 ->
  body_of resp = JObj b ->
  dict_get (py "items") b = Some (JArr its) ->
  Forall is_event its ->
  Exists (field_missing (py "date_id")) its ->
  exists its' cols,
    Forall2 (augmented E) its its'
    /\ list_section E access
       = (Raise KeyError,
          [HttpCall (list_request E access); StDataframe cols its']).
Proof.
  intros Hr Hsc Hb Hi Hev Hex.
  destruct (list_events_events E access resp b its Hr Hsc Hb Hi Hev)
    as (its' & Hl & HR).
  exists its'.
  assert (Hopts : mapM_res option_of its' = Raise KeyError).
  { apply mapM_res_key_error.
    - clear -HR. induction HR as [|it it' its its' H _ IH]; constructor;
        [|exact IH].
      destruct (augmented_date_id E it it' H) as (d & d' & _ & -> & _).
      exists d'. reflexivity.
    - clear -HR Hex. induction HR as [|it it' its its' H _ IH];
        inversion Hex as [? ? Hit|? ? Hex']; subst.
      + left. destruct (augmented_date_id E it it' H) as (d & d' & -> & -> & _ & Hg).
        destruct Hit as (d0 & [= <-] & Hd). exists d'. split; [reflexivity|].
        rewrite Hg. exact Hd.
      + right. apply IH, Hex'. }
  destruct HR as [|it it' its0 its0' H HR]; [inversion Hex|].
  destruct (augmented_date_id E it it' H) as (d & d' & -> & -> & Hd' & _).
  destruct (list_section_rows E access d' its0' _ Hd' Hl) as [cols Hs].
  exists cols. split; [constructor; assumption|].
  rewrite Hs, Hopts. reflexivity.
Qed.

(** ** The buttons *)

(** X20.  Create sends nothing without a title: it sends a request
    exactly when the title is not empty, and with an empty title it only
    shows "Title is required.". *)
Theorem create_click_validation (E : env) (f : create_form) :
  (http_calls (snd (create_click E f)) = [] <-> title f = [])
  /\ (title f = [] ->
      create_click E f = (Ok tt, [StError (py "Title is required.")])).
Proof.
  assert (H0 : title f = [] ->
               create_click E f = (Ok tt, [StError (py "Title is required.")])).
  { intros Ht. unfold create_click. rewrite Ht. reflexivity. }
  split; [|exact H0]. split.
  - intros Hc. destruct (decide (title f = [])) as [Ht|Ht]; [exact Ht|].
    rewrite (create_click_calls E f Ht) in Hc. discriminate.
  - intros Ht. rewrite (H0 Ht). reflexivity.
Qed.

Lemma create_click_resp (E : env) (f : create_form) (resp : response) :
  title f <> [] ->
  http E (post_request E (create_payload f)) = Ok resp ->
  create_click E f
  = (r ← (Ok (status_code resp, body_of resp, headers resp),
          [HttpCall (post_request E (create_payload f))]);
     let '(sc, body, hdrs) := r in
     if sc =? 201 then
       loc ← lift
         (match header_get (py "Location") hdrs with
          | Some ((_ :: _) as s) => Ok (JStr s)
          | _ => body_get (py "location") body
          end);
       st_success
         (py "Created " ++ [10003] ++ py " " ++ fmt E (py_or loc (JStr []))) ;;
       st_experimental_rerun
     else
       m ← lift (body_get (py "message") body);
       st_error
         (py "Create failed (" ++ fmt_int sc ++ py "): "
          ++ fmt E (py_or m body))).
Proof.
  intros Ht Hr. unfold create_click.
  rewrite bool_decide_eq_false_2 by exact Ht.
  unfold create_event.
  rewrite (req_body_of E (py "POST") (py "/events") [] _ resp Hr).
  reflexivity.
Qed.

Lemma body_get_dict (k : pystr) (body : json) (d : dict) :
  py_or body (JObj []) = JObj d -> body_get k body = Ok (dict_get_none k d).
Proof. unfold body_get. intros ->. reflexivity. Qed.


(** X22.  When creating succeeds (status 201), Create shows "Created"
    with the new location, and the call meant to reload the page then
    raises [AttributeError]: the page is not reloaded and the run ends
    on that error.  The location is the [Location] header when the
    answer has a non-empty one, and the [location] field of a
    JSON-object body otherwise. *)
Theorem create_click_created (E : env) (f : create_form) (resp : response) :
  title f <> [] ->
  http E (post_request E (create_payload f)) = Ok resp ->
  status_code resp = 201 ->
  (forall c s, header_get (py "Location") (headers resp) = Some (c :: s) ->
     create_click E f
     = (Raise AttributeError,
        [HttpCall (post_request E (create_payload f));
         StSuccess (py "Created " ++ [10003] ++ py " " ++ c :: s)]))
  /\ (forall d,
        header_get (py "Location") (headers resp) = None
        \/ header_get (py "Location") (headers resp) = Some [] ->
        py_or (body_of resp) (JObj []) = JObj d ->
        create_click E f
        = (Raise AttributeError,
           [HttpCall (post_request E (create_payload f));
            StSuccess (py "Created " ++ [10003] ++ py " "
                       ++ fmt E (py_or (dict_get_none (py "location") d)
                                   (JStr [])))])).
Proof.
  intros Ht Hr Hsc. rewrite (create_click_resp E f resp Ht Hr).
  split; [intros c s Hh|intros d Hh Hd];
    unfold mbind at 1; unfold M_bind; rewrite Hsc; lazy beta iota zeta.
  - rewrite Hh. reflexivity.
  - destruct Hh as [Hh|Hh]; rewrite Hh, (body_get_dict _ _ _ Hd); reflexivity.
Qed.

Lemma lift_ok_bind {A B : Type} (a : A) (k : A -> M B) :
  (x ← lift (Ok a); k x) = k a.
Proof.
  unfold mbind, M_bind, lift. destruct (k a) as [r log]. reflexivity.
Qed.

Lemma event_ops_path (E : env) (a id p : pystr) (patch : dict) :
  event_path a id = Ok p ->
  get_event E a id = req E (py "GET") p [] None
  /\ update_event E a id patch = req E (py "PUT") p [] (Some (JObj patch))
  /\ delete_event E a id = req E (py "DELETE") p [] None.
Proof.
  intros Hp. unfold get_event, update_event, delete_event. rewrite Hp.
  rewrite !lift_ok_bind. auto.
Qed.



(** X24.  Delete sends one DELETE request for the event; on status 200 or
    204 it shows "Deleted", and the call meant to reload the page then
    raises [AttributeError], so the page is not reloaded and the run
    ends on that error; every other status is shown as "Delete failed
    (status)" and Delete returns. *)
Theorem delete_click_outcome (E : env) (a id p : pystr) (resp : response) :
  event_path a id = Ok p ->
  http E (event_request E (py "DELETE") p None) = Ok resp ->
  (status_code resp = 200 \/ status_code resp = 204 ->
   delete_click E a id
   = (Raise AttributeError,
      [HttpCall (event_request E (py "DELETE") p None);
       StSuccess (py "Deleted " ++ [10003])]))
  /\ (status_code resp <> 200 -> status_code resp <> 204 ->
      delete_click E a id
      = (Ok tt,
         [HttpCall (event_request E (py "DELETE") p None);
          StError (py "Delete failed (" ++ fmt_int (status_code resp)
                   ++ py ")")])).
Proof.
  intros Hp Hr. unfold delete_click.
  rewrite (proj2 (proj2 (event_ops_path E a id p [] Hp))).
  rewrite (req_body_of E (py "DELETE") p [] None resp Hr).
  split; [intros Hsc|intros H1 H2]; unfold mbind at 1; unfold M_bind;
    lazy beta iota zeta.
  - destruct Hsc as [-> | ->]; reflexivity.
  - destruct (Z.eqb_spec (status_code resp) 200) as [?|_]; [contradiction|].
    destruct (Z.eqb_spec (status_code resp) 204) as [?|_]; [contradiction|].
    reflexivity.
Qed.


(** ** Configuration *)

Lemma rstrip_app (c : Z) (s : pystr) :
  exists n, s = rstrip c s ++ replicate n c.
Proof.
  induction s as [|x s [n IH]]; simpl.
  - exists 0%nat. reflexivity.
  - destruct (rstrip c s) as [|y r] eqn:Hr.
    + destruct (Z.eqb_spec x c) as [->|_].
      * exists (S n). simpl. rewrite IH at 1. reflexivity.
      * exists n. simpl. rewrite IH at 1. reflexivity.
    + exists n. simpl. rewrite IH at 1. reflexivity.
Qed.

Lemma rstrip_last (c : Z) (s : pystr) : last (rstrip c s) <> Some c.
Proof.
  induction s as [|x s IH]; simpl; [discriminate|].
  destruct (rstrip c s) as [|y r] eqn:Hr.
  - destruct (Z.eqb_spec x c) as [->|Hx]; simpl; congruence.
  - exact IH.
Qed.

Lemma rstrip_nil (c : Z) (s : pystr) :
  rstrip c s = [] <-> Forall (fun x => x = c) s.
Proof.
  induction s as [|x s IH]; simpl; [split; [constructor|reflexivity]|].
  destruct (rstrip c s) as [|y r] eqn:Hr.
  - destruct (Z.eqb_spec x c) as [->|Hx].
    + split; [intros _; constructor; [reflexivity|apply IH; reflexivity]
             |reflexivity].
    + split; [discriminate|]. intros H. apply Forall_cons in H as [H _].
      contradiction.
  - split; [discriminate|]. intros H. apply Forall_cons in H as [_ H].
    apply IH in H. discriminate.
Qed.

(** X26.  Start-up accepts a configuration exactly when the key is not
    empty and the base URL holds something other than ["/"]; the base
    URL it then works with is the configured one without its trailing
    slashes, so it is not empty and does not end in ["/"], and the key
    is taken as it is. *)
Theorem configure_spec (env_base env_key : pystr) :
  (configure env_base env_key = None
   <-> env_key = [] \/ Forall (fun c => c = 47) env_base)
  /\ (forall api_base api_key,
        configure env_base env_key = Some (api_base, api_key) ->
        api_key = env_key /\ api_key <> [] /\ api_base <> []
        /\ last api_base <> Some 47
        /\ exists n, env_base = api_base ++ replicate n 47).
Proof.
  unfold configure. split.
  - rewrite <- rstrip_nil.
    destruct (rstrip 47 env_base); destruct env_key; simpl;
      split; try discriminate; try reflexivity; auto.
    intros [H|H]; discriminate.
  - intros b k.
    pose proof (rstrip_app 47 env_base) as Happ.
    pose proof (rstrip_last 47 env_base) as Hlast.
    destruct (rstrip 47 env_base) as [|x r]; destruct env_key as [|y key];
      simpl; try discriminate.
    intros [= <- <-]. repeat split; try discriminate; assumption.
Qed.

(** ** The further properties at concrete inputs *)

Lemma enc_alphabet_witness :
  Forall (fun c => always_safe c = true \/ c = 37) (py "2025-10-06%23abc123")
  /\ (length (py "2025-10-06#abc123") <= length (py "2025-10-06%23abc123")
      <= 12 * length (py "2025-10-06#abc123"))%nat.
Proof.
  exact (enc_alphabet (py "2025-10-06#abc123") (py "2025-10-06%23abc123")
           eq_refl).
Defined.

Lemma enc_app_witness :
  enc (py "2025-10-06" ++ py "#abc123")
  = Ok (py "2025-10-06" ++ py "%23abc123").
Proof.
  exact (enc_app (py "2025-10-06") (py "#abc123") (py "2025-10-06")
           (py "%23abc123") eq_refl eq_refl).
Defined.

Lemma private_no_slash : 47 ∉ py "private".
Proof.
  vm_compute. intros H.
  repeat (apply elem_of_cons in H as [H|H]; [discriminate|]). inversion H.
Qed.

Lemma event_path_injective_witness :
  event_path (py "private") (py "2025-10-06#abc123") = Ok sample_path
  /\ py "private" = py "private"
  /\ py "2025-10-06#abc123" = py "2025-10-06#abc123".
Proof.
  split; [reflexivity|].
  exact (event_path_injective (py "private") (py "private")
           (py "2025-10-06#abc123") (py "2025-10-06#abc123") sample_path
           private_no_slash private_no_slash eq_refl eq_refl).
Defined.

Lemma content_type_NoDup :
  NoDup (fst <$> [(py "Content-Type", py "text/plain")]).
Proof. constructor; [apply not_elem_of_nil|constructor]. Qed.

Lemma req_sends_one_request_witness :
  exists rq,
    http_calls (snd (req (fixed_env (Ok bad_gateway)) (py "GET")
                       (py "/events/private")
                       [(py "Content-Type", py "text/plain")] None))
    = [rq]
    /\ dict_get (py "Content-Type") (rq_headers rq) = Some (py "text/plain")
    /\ dict_get (py "x-api-key") (rq_headers rq) = Some (py "secret").
Proof.
  destruct (req_sends_one_request (fixed_env (Ok bad_gateway)) (py "GET")
              (py "/events/private") [(py "Content-Type", py "text/plain")]
              None content_type_NoDup)
    as (rq & Hc & _ & _ & _ & Hh & Hk).
  exists rq. split; [exact Hc|]. split; [rewrite Hh; reflexivity|].
  apply Hk. reflexivity.
Defined.

Lemma client_one_request_witness :
  http_calls (snd (get_event (fixed_env (Ok bad_gateway)) (py "private")
                     (py "2025-10-06#abc123")))
  = [event_request (fixed_env (Ok bad_gateway)) (py "GET") sample_path None]
  /\ http_calls (snd (delete_event (fixed_env (Ok bad_gateway)) (py "private")
                        (py "2025-10-06#abc123")))
     = [event_request (fixed_env (Ok bad_gateway)) (py "DELETE") sample_path
          None].
Proof.
  destruct (client_one_request (fixed_env (Ok bad_gateway)) (py "private")
              (py "2025-10-06#abc123") sample_path [] [] eq_refl)
    as (_ & _ & Hg & _ & Hd).
  split; [exact Hg|exact Hd].
Defined.

Lemma lone_surrogate_str :
  is_str [55296] /\ Exists (fun c => is_surrogate c = true) [55296].
Proof.
  split; [apply is_str_check; reflexivity|]. constructor. reflexivity.
Qed.

Lemma event_ops_unencodable_witness :
  get_event (fixed_env (Ok bad_gateway)) (py "private") [55296]
  = (Raise UnicodeEncodeError, [])
  /\ delete_click (fixed_env (Ok bad_gateway)) (py "private") [55296]
     = (Raise UnicodeEncodeError, []).
Proof.
  destruct (event_ops_unencodable (fixed_env (Ok bad_gateway)) (py "private")
              [55296] [] [] sample_edit (proj1 lone_surrogate_str)
              (proj2 lone_surrogate_str))
    as (Hg & _ & _ & Hd & _).
  split; [exact Hg|exact Hd].
Defined.

Lemma list_events_no_records_witness :
  list_events (fixed_env (Ok no_items_ok)) (py "private")
  = (Ok (JArr []),
     [HttpCall (list_request (fixed_env (Ok no_items_ok)) (py "private"))])
  /\ list_section (fixed_env (Ok no_items_ok)) (py "private")
     = (Ok (JArr [], []),
        [HttpCall (list_request (fixed_env (Ok no_items_ok)) (py "private"));
         StInfo (py "No events for this access yet.")]).
Proof.
  exact (list_events_no_records (fixed_env (Ok no_items_ok)) (py "private")
           no_items_ok [] eq_refl eq_refl eq_refl (or_introl eq_refl)).
Defined.

Lemma html_ok_content : content html_ok <> [].
Proof. discriminate. Qed.

Lemma list_events_unparseable_200_witness :
  list_events (fixed_env (Ok html_ok)) (py "private")
  = (Ok (JArr []),
     [HttpCall (list_request (fixed_env (Ok html_ok)) (py "private"))])
  /\ list_section (fixed_env (Ok html_ok)) (py "private")
     = (Ok (JArr [], []),
        [HttpCall (list_request (fixed_env (Ok html_ok)) (py "private"));
         StInfo (py "No events for this access yet.")]).
Proof.
  exact (list_events_unparseable_200 (fixed_env (Ok html_ok)) (py "private")
           html_ok eq_refl eq_refl html_ok_content eq_refl).
Defined.

Lemma empty_ok_not_object : forall d, body_of empty_ok <> JObj d.
Proof. intros d. discriminate. Qed.

Lemma list_events_not_object_200_witness :
  list_events (fixed_env (Ok empty_ok)) (py "private")
  = (Raise AttributeError,
     [HttpCall (list_request (fixed_env (Ok empty_ok)) (py "private"))])
  /\ list_section (fixed_env (Ok empty_ok)) (py "private")
     = (Ok (JArr [], []),
        [HttpCall (list_request (fixed_env (Ok empty_ok)) (py "private"));
         StError (py "<exception>");
         StInfo (py "No events for this access yet.")]).
Proof.
  exact (list_events_not_object_200 (fixed_env (Ok empty_ok)) (py "private")
           empty_ok eq_refl eq_refl empty_ok_not_object).
Defined.

Lemma timeout_not_rerun : RequestException (py "timed out") <> RerunException.
Proof. discriminate. Qed.

Lemma list_section_transport_error_witness :
  list_events timeout_env (py "private")
  = (Raise (RequestException (py "timed out")),
     [HttpCall (list_request timeout_env (py "private"))])
  /\ list_section timeout_env (py "private")
     = (Ok (JArr [], []),
        [HttpCall (list_request timeout_env (py "private"));
         StError (py "timed out");
         StInfo (py "No events for this access yet.")]).
Proof.
  exact (list_section_transport_error timeout_env (py "private")
           (RequestException (py "timed out")) eq_refl timeout_not_rerun).
Defined.

Lemma list_events_all_or_nothing_witness :
  (exists v, fst (list_events (fixed_env (Ok sample_listing)) (py "private"))
             = Ok v)
  <-> Forall augmentable [JObj sample_event].
Proof.
  exact (proj1 (list_events_all_or_nothing (fixed_env (Ok sample_listing))
                  (py "private") sample_listing
                  [(py "items", JArr [JObj sample_event])] [JObj sample_event]
                  eq_refl eq_refl eq_refl eq_refl)).
Defined.

Lemma sample_listing_rows :
  [JObj sample_event] <> []
  /\ Forall is_event [JObj sample_event]
  /\ Forall2 (field_is (py "date_id")) [JObj sample_event]
       [JStr (py "2025-10-06#abc123")].
Proof.
  split; [discriminate|].
  split; [constructor; [apply sample_event_is_event|constructor]|].
  constructor; [|constructor]. exists sample_event. split; reflexivity.
Qed.

Lemma list_section_options_witness :
  exists its' cols,
    Forall2 (augmented (fixed_env (Ok sample_listing))) [JObj sample_event] its'
    /\ list_section (fixed_env (Ok sample_listing)) (py "private")
       = (Ok (JArr its', [JStr (py "2025-10-06#abc123")]),
          [HttpCall (list_request (fixed_env (Ok sample_listing)) (py "private"));
           StDataframe cols its']).
Proof.
  exact (list_section_options (fixed_env (Ok sample_listing)) (py "private")
           sample_listing [(py "items", JArr [JObj sample_event])]
           [JObj sample_event] [JStr (py "2025-10-06#abc123")]
           eq_refl eq_refl eq_refl eq_refl
           (proj1 sample_listing_rows) (proj1 (proj2 sample_listing_rows))
           (proj2 (proj2 sample_listing_rows))).
Defined.

Lemma dateless_listing_rows :
  Forall is_event [JObj dateless_event]
  /\ Exists (field_missing (py "date_id")) [JObj dateless_event].
Proof.
  split.
  - constructor; [|constructor].
    exists dateless_event, [], [], [], []. split; [reflexivity|].
    repeat split; right; split; reflexivity.
  - constructor. exists dateless_event. split; reflexivity.
Qed.

Lemma list_section_missing_date_id_witness :
  exists its' cols,
    Forall2 (augmented (fixed_env (Ok dateless_listing)))
      [JObj dateless_event] its'
    /\ list_section (fixed_env (Ok dateless_listing)) (py "private")
       = (Raise KeyError,
          [HttpCall (list_request (fixed_env (Ok dateless_listing))
                       (py "private"));
           StDataframe cols its']).
Proof.
  exact (list_section_missing_date_id (fixed_env (Ok dateless_listing))
           (py "private") dateless_listing
           [(py "items", JArr [JObj dateless_event])] [JObj dateless_event]
           eq_refl eq_refl eq_refl eq_refl
           (proj1 dateless_listing_rows) (proj2 dateless_listing_rows)).
Defined.

Lemma rehearsal_titled : title rehearsal_form <> [].
Proof. discriminate. Qed.



Lemma create_click_created_witness :
  create_click (fixed_env (Ok created)) rehearsal_form
  = (Raise AttributeError,
     [HttpCall (post_request (fixed_env (Ok created))
                  (create_payload rehearsal_form));
      StSuccess (py "Created " ++ [10003] ++ py " " ++ sample_path)]).
Proof.
  exact (proj1 (create_click_created (fixed_env (Ok created)) rehearsal_form
                  created rehearsal_titled eq_refl eq_refl)
           47 (py "events/private/2025-10-06%23abc123") eq_refl).
Defined.



Lemma delete_click_outcome_witness :
  delete_click (fixed_env (Ok no_content)) (py "private")
    (py "2025-10-06#abc123")
  = (Raise AttributeError,
     [HttpCall (event_request (fixed_env (Ok no_content)) (py "DELETE")
                  sample_path None);
      StSuccess (py "Deleted " ++ [10003])]).
Proof.
  exact (proj1 (delete_click_outcome (fixed_env (Ok no_content)) (py "private")
                  (py "2025-10-06#abc123") sample_path no_content
                  eq_refl eq_refl)
           (or_intror eq_refl)).
Defined.


